(** * Voice-point bot ([bot.py]): store, presence tracker, accrual loop,
      verification handshake.

    A shallow embedding of [src/bot.py].  The three SQLite tables are finite
    maps keyed by their [INTEGER PRIMARY KEY]; the module-level dictionary
    [voice_tracking] is a finite map as well.  Python integers are [Z]
    (the 64-bit range of SQLite's integers is not modelled); the floats
    returned by [time.time()] are idealised as rationals [Q]; text is
    [string].  Results of calls into the Python runtime and the platform
    (clock readings, [str.strip], [str.upper], [int], [bot.fetch_user],
    [bot.run]) are parameters of the definitions that use them. *)

From Stdlib Require Import ZArith QArith Qround String Ascii List Lia.
From stdpp Require Import gmap strings list sorting.

Open Scope Z_scope.

(** ** Python helpers *)

(** [int(x)] on a float: truncation toward zero. *)
Definition py_int (q : Q) : Z := Z.quot (Qnum q) (Zpos (Qden q)).

(** [str.strip] and [str.upper] are built-ins of the Python runtime, not
    code of the repository: they follow the Unicode tables.  The handlers
    take them as a parameter, and every general statement below holds
    whatever the two functions are. *)
Record py_str := PyStr {
  strip : string -> string;
  upper : string -> string
}.

(** The two built-ins on ASCII text, where they are simple: blanks are
    TAB..CR, FS..US and the space, and only [a]..[z] have an upper case.
    This instance serves to run the handlers on concrete ASCII inputs; a
    character outside ASCII is left as it is, which is not what Python
    does, and nothing general is proved from it. *)
Definition ascii_isspace (a : ascii) : bool :=
  let n := Z.of_nat (nat_of_ascii a) in
  ((9 <=? n) && (n <=? 13)) || ((28 <=? n) && (n <=? 32)).

Fixpoint ascii_lstrip (s : string) : string :=
  match s with
  | EmptyString => EmptyString
  | String a s' => if ascii_isspace a then ascii_lstrip s' else s
  end.

Fixpoint ascii_rstrip (s : string) : string :=
  match s with
  | EmptyString => EmptyString
  | String a s' =>
      match ascii_rstrip s' with
      | EmptyString =>
          if ascii_isspace a then EmptyString else String a EmptyString
      | t => String a t
      end
  end.

Definition ascii_strip (s : string) : string := ascii_rstrip (ascii_lstrip s).

Definition ascii_upper_char (a : ascii) : ascii :=
  let n := nat_of_ascii a in
  if ((97 <=? n) && (n <=? 122))%nat then ascii_of_nat (n - 32) else a.

Fixpoint ascii_upper (s : string) : string :=
  match s with
  | EmptyString => EmptyString
  | String a s' => String (ascii_upper_char a) (ascii_upper s')
  end.

Definition ascii_text : py_str := PyStr ascii_strip ascii_upper.

(** ** Stable sort, used for table scans and [ORDER BY] *)

Section StableSort.
Context {A : Type} (le : A -> A -> bool).

Fixpoint sort_insert (x : A) (l : list A) : list A :=
  match l with
  | [] => [x]
  | y :: l' => if le x y then x :: y :: l' else y :: sort_insert x l'
  end.

(** Earlier elements stay in front of later ones they tie with. *)
Fixpoint stable_sort (l : list A) : list A :=
  match l with
  | [] => []
  | x :: l' => sort_insert x (stable_sort l')
  end.
End StableSort.

(** ** Data model *)

(** A row of [vp_balance]; the key [discord_id] is the map key. *)
Record balance_row := BalanceRow {
  discord_name : string;
  vp : Z;
  total_earned : Z;
  last_seen : Z
}.

(** A row of [discord_links]; the key [discord_id] is the map key.
    [linked_at] and [pending_code] may be [NULL]. *)
Record link_row := LinkRow {
  growid : string;
  linked_at : option Z;
  verified : Z;
  pending_code : option string
}.

(** A value of the dictionary [voice_tracking]:
    [{'channel_id': id, 'joined_at': timestamp}]. *)
Record track_entry := TrackEntry {
  channel_id : Z;
  joined_at : Q
}.

(** Rows of a table in the order a full scan visits them: ascending rowid,
    which for an [INTEGER PRIMARY KEY] table is the key itself. *)
Definition table_rows {V : Type} (t : gmap Z V) : list (Z * V) :=
  stable_sort (fun a b => fst a <=? fst b) (map_to_list t).

(** SQLite's [LIMIT n]: a negative [n] puts no bound on the result. *)
Definition sql_limit {A : Type} (n : Z) (l : list A) : list A :=
  if n <? 0 then l else take (Z.to_nat n) l.

(** The two columns the leaderboard query selects from a row. *)
Definition board_entry (kr : Z * balance_row) : string * Z :=
  (discord_name (snd kr), total_earned (snd kr)).

(** ** [class Database]: the [vp_balance] table *)

Module Database.

(** [get_or_create_user(discord_id, discord_name)]; [stamp] is the value
    [int(time.time())] has at the [INSERT].  The inserted row takes the
    column defaults [vp = 0] and [total_earned = 0]. *)
Definition get_or_create_user (db : gmap Z balance_row)
    (discord_id : Z) (name : string) (stamp : Z)
    : option balance_row * gmap Z balance_row :=
  match db !! discord_id with
  | Some user => (Some user, db)
  | None =>
      let db' := <[discord_id := BalanceRow name 0 0 stamp]> db in
      (db' !! discord_id, db')
  end.

(** [add_vp(discord_id, amount)]: the [UPDATE] touches the rows whose key
    matches (none when the key is unknown), then the balance is read
    back. *)
Definition add_vp (db : gmap Z balance_row)
    (discord_id amount stamp : Z) : Z * gmap Z balance_row :=
  let db' :=
    alter (fun r => BalanceRow (discord_name r) (vp r + amount)
                               (total_earned r + amount) stamp)
          discord_id db in
  (match db' !! discord_id with Some r => vp r | None => 0 end, db').

(** [get_vp(discord_id)] *)
Definition get_vp (db : gmap Z balance_row) (discord_id : Z) : Z :=
  match db !! discord_id with Some r => vp r | None => 0 end.

(** [spend_vp(discord_id, amount)] *)
Definition spend_vp (db : gmap Z balance_row)
    (discord_id amount : Z) : bool * gmap Z balance_row :=
  match db !! discord_id with
  | None => (false, db)
  | Some user =>
      if vp user <? amount then (false, db)
      else
        (true,
         alter (fun r => BalanceRow (discord_name r) (vp r - amount)
                                    (total_earned r) (last_seen r))
               discord_id db)
  end.

(** [get_leaderboard(limit)]:
    [SELECT discord_name, total_earned ... ORDER BY total_earned DESC
    LIMIT ?].  Rows that tie keep their scan order. *)
Definition get_leaderboard (db : gmap Z balance_row) (limit : Z)
    : list (string * Z) :=
  sql_limit limit
    (map board_entry
       (stable_sort
          (fun a b => total_earned (snd b) <=? total_earned (snd a))
          (table_rows db))).

End Database.

(** ** Configuration and global state *)

(** The two channel identifiers read from the environment at start-up. *)
Record config := Config {
  VP_CHANNEL_ID : Z;
  GEMS_CHANNEL_ID : Z
}.

(** [VP_PER_MINUTE = 2] *)
Definition VP_PER_MINUTE : Z := 2.

(** The store ([db]) and the module-level dictionary [voice_tracking]. *)
Record bot_state := BotState {
  vp_balance : gmap Z balance_row;
  discord_links : gmap Z link_row;
  voice_tracking : gmap Z track_entry
}.

(** ** Presence tracker: [on_voice_state_update(member, before, after)] *)

(** [before] and [after] are the channel identifiers of [before.channel]
    and [after.channel] ([None] when the member is in no channel); [now] is
    [time.time()] and [stamp] the later [int(time.time())] of the insert. *)
Definition on_voice_state_update (st : bot_state)
    (member_id : Z) (member_name : string) (before after : option Z)
    (now : Q) (stamp : Z) : bot_state :=
  match before, after with
  | None, Some c =>
      (* joined a voice channel *)
      BotState
        (snd (Database.get_or_create_user (vp_balance st) member_id
                member_name stamp))
        (discord_links st)
        (<[member_id := TrackEntry c now]> (voice_tracking st))
  | Some _, None =>
      (* left: [del voice_tracking[discord_id]] when the key is there *)
      BotState (vp_balance st) (discord_links st)
        (delete member_id (voice_tracking st))
  | Some b, Some a =>
      if b =? a then st
      else
        (* switched channels *)
        BotState (vp_balance st) (discord_links st)
          (<[member_id := TrackEntry a now]> (voice_tracking st))
  | None, None => st
  end.

(** ** Accrual loop: [check_voice_states()] *)

(** One iteration of the [for] loop over the snapshot
    [list(voice_tracking.items())].  [stamps discord_id] is the
    [int(time.time())] read inside the [add_vp] call made for that key.
    The body has no suspension point, so the key of the snapshot item is
    still in the live dictionary when its timer is reset. *)
Definition award (cfg : config) (current_time : Q) (stamps : Z -> Z)
    (acc : gmap Z balance_row * gmap Z track_entry)
    (item : Z * track_entry) : gmap Z balance_row * gmap Z track_entry :=
  let discord_id := fst item in
  let data := snd item in
  let minutes_elapsed := ((current_time - joined_at data) / 60)%Q in
  if Qle_bool 1 minutes_elapsed then
    if channel_id data =? VP_CHANNEL_ID cfg then
      let vp_earned := py_int (minutes_elapsed * inject_Z VP_PER_MINUTE) in
      if 0 <? vp_earned then
        (snd (Database.add_vp (fst acc) discord_id vp_earned
                (stamps discord_id)),
         alter (fun e => TrackEntry (channel_id e) current_time)
               discord_id (snd acc))
      else acc
    else acc (* the gems channel is only logged *)
  else acc.

(** The result does not depend on the order in which the snapshot is
    walked (each iteration touches its own key only). *)
Definition check_voice_states (cfg : config) (st : bot_state)
    (current_time : Q) (stamps : Z -> Z) : bot_state :=
  let r := foldl (award cfg current_time stamps)
                 (vp_balance st, voice_tracking st)
                 (map_to_list (voice_tracking st)) in
  BotState (fst r) (discord_links st) (snd r).

(** ** Commands *)

Inductive bonus := EarningVP | GemsMultiplier.

(** What a handler sends with [interaction.response.send_message]. *)
Inductive reply :=
| AlreadyVerified (g : string)
| InvalidCode
| VerificationSuccessful (g : string)
| AdminOnly
| NotLinked
| Unlinked (g : string)
| BalanceEmbed (link : option (string * bool)) (current total : Z)
               (active : option bonus)
| LeaderboardEmbed (entries : list (string * Z))
| GrowidNotLinked (g : string)
| LinkInfo (g mention : string) (linked : Z) (balance : Z)
| YouAreNotLinked
| PendingVerification (g : string)
| OwnLink (g : string) (balance : Z) (linked : Z)
| HelpEmbed.

(** Exceptions the program can end in: [sqlite3.IntegrityError] and
    [sqlite3.OperationalError], [TypeError], [ValueError],
    [discord.NotFound], [discord.LoginFailure].  No handler has a
    [try]. *)
Inductive exn :=
| IntegrityError
| TypeError
| NotFound
| ValueError
| OperationalError
| LoginFailure.

Inductive outcome :=
| Replied (r : reply)
| Raised (e : exn).

(** The row [existing] of [/verify] when the test
    [existing and existing[1] == 1] passes. *)
Definition verified_link (links : gmap Z link_row) (discord_id : Z)
    : option link_row :=
  match links !! discord_id with
  | Some existing => if verified existing =? 1 then Some existing else None
  | None => None
  end.

(** [SELECT discord_id, growid FROM discord_links
     WHERE pending_code=? AND verified=0], first row. *)
Definition find_pending (links : gmap Z link_row) (code : string)
    : option (Z * link_row) :=
  head (filter (fun kr : Z * link_row =>
                  pending_code (snd kr) = Some code /\ verified (snd kr) = 0)
               (table_rows links)).

(** The columns the [UPDATE] of [/verify] sets, apart from the key. *)
Definition rebound (stamp : Z) (r : link_row) : link_row :=
  LinkRow (growid r) (Some stamp) 1 None.

(** [UPDATE discord_links SET discord_id=?, verified=1, pending_code=NULL,
     linked_at=? WHERE pending_code=?].  Every row carrying the code is
     moved to the key [discord_id]; the statement fails as a whole, leaving
     the table as it was, when that breaks the primary key: two rows would
     share the key, or another row already has it. *)
Definition update_rebind (links : gmap Z link_row)
    (discord_id stamp : Z) (code : string) : exn + gmap Z link_row :=
  let hit := filter (fun kr : Z * link_row =>
                       pending_code (snd kr) = Some code) links in
  let rest := filter (fun kr : Z * link_row =>
                        pending_code (snd kr) <> Some code) links in
  match map_to_list hit with
  | [] => inr links
  | [kr] =>
      match rest !! discord_id with
      | Some _ => inl IntegrityError
      | None => inr (<[discord_id := rebound stamp (snd kr)]> rest)
      end
  | _ :: _ :: _ => inl IntegrityError
  end.

(** [/verify code]; [py] gives [code.strip().upper()], [linked_stamp] and
    [seen_stamp] are the two readings of [int(time.time())]. *)
Definition verify_command (py : py_str) (st : bot_state)
    (discord_id : Z) (user_name : string) (code : string)
    (linked_stamp seen_stamp : Z) : outcome * bot_state :=
  let code := upper py (strip py code) in
  match verified_link (discord_links st) discord_id with
  | Some existing => (Replied (AlreadyVerified (growid existing)), st)
  | None =>
      match find_pending (discord_links st) code with
      | None => (Replied InvalidCode, st)
      | Some pending =>
          match update_rebind (discord_links st) discord_id linked_stamp
                  code with
          | inl e => (Raised e, st)
          | inr links' =>
              (Replied (VerificationSuccessful (growid (snd pending))),
               BotState
                 (snd (Database.get_or_create_user (vp_balance st)
                         discord_id user_name seen_stamp))
                 links' (voice_tracking st))
          end
      end
  end.

(** [/unlink user]; [is_admin] is
    [interaction.user.guild_permissions.administrator], [target] the
    optional [user] argument. *)
Definition unlink_command (st : bot_state)
    (is_admin : bool) (caller_id : Z) (target : option Z)
    : outcome * bot_state :=
  if negb is_admin then (Replied AdminOnly, st)
  else
    let target_id := match target with Some u => u | None => caller_id end in
    match discord_links st !! target_id with
    | None => (Replied NotLinked, st)
    | Some existing =>
        (Replied (Unlinked (growid existing)),
         BotState (vp_balance st)
           (delete target_id (discord_links st))
           (voice_tracking st))
    end.

(** [/vp]; [voice] is the channel the platform reports the member in. *)
Definition vp_command (cfg : config) (st : bot_state)
    (user_id : Z) (user_name : string) (stamp : Z) (voice : option Z)
    : outcome * bot_state :=
  let r := Database.get_or_create_user (vp_balance st) user_id user_name
             stamp in
  let st' := BotState (snd r) (discord_links st) (voice_tracking st) in
  let link_result :=
    match discord_links st !! user_id with
    | Some l => Some (growid l, negb (verified l =? 0))
    | None => None
    end in
  let active :=
    match voice with
    | Some c =>
        if c =? VP_CHANNEL_ID cfg then Some EarningVP
        else if c =? GEMS_CHANNEL_ID cfg then Some GemsMultiplier
        else None
    | None => None
    end in
  match fst r with
  | None => (Raised TypeError, st')
  | Some user =>
      (Replied (BalanceEmbed link_result (vp user) (total_earned user)
                  active), st')
  end.

(** [/whois growid]: the first row whose [growid] column is the argument
    (the column is [UNIQUE], so a table has at most one).
    [fetch_user] stands for the platform's [bot.fetch_user]: the mention
    of the user with that identifier, or [None] where the platform raises
    [discord.NotFound]; [datetime.fromtimestamp] raises [TypeError] on a
    [NULL] [linked_at]. *)
Definition whois_command (st : bot_state) (g : string)
    (fetch_user : Z -> option string) : outcome * bot_state :=
  match head (filter (fun kr : Z * link_row => growid (snd kr) = g)
                     (table_rows (discord_links st))) with
  | None => (Replied (GrowidNotLinked g), st)
  | Some result =>
      match fetch_user (fst result) with
      | None => (Raised NotFound, st)
      | Some mention =>
          match linked_at (snd result) with
          | None => (Raised TypeError, st)
          | Some linked =>
              (Replied (LinkInfo g mention linked
                          (Database.get_vp (vp_balance st) (fst result))),
               st)
          end
      end
  end.

(** [/mylink] *)
Definition mylink_command (st : bot_state) (user_id : Z)
    : outcome * bot_state :=
  match discord_links st !! user_id with
  | None => (Replied YouAreNotLinked, st)
  | Some result =>
      if verified result =? 0 then
        (Replied (PendingVerification (growid result)), st)
      else
        match linked_at result with
        | None => (Raised TypeError, st)
        | Some linked =>
            (Replied (OwnLink (growid result)
                        (Database.get_vp (vp_balance st) user_id) linked),
             st)
        end
  end.

(** [/help] *)
Definition help_command (st : bot_state) : outcome * bot_state :=
  (Replied HelpEmbed, st).

(** [/leaderboard] *)
Definition leaderboard_command (st : bot_state) : outcome * bot_state :=
  (Replied (LeaderboardEmbed (Database.get_leaderboard (vp_balance st) 10)),
   st).

(** ** The bot as a transition system *)

Inductive event :=
| VoiceStateUpdate (member_id : Z) (member_name : string)
    (before after : option Z) (now : Q) (stamp : Z)
| CheckVoiceStates (current_time : Q) (stamps : Z -> Z)
| Verify (discord_id : Z) (user_name code : string)
    (linked_stamp seen_stamp : Z)
| Unlink (is_admin : bool) (caller_id : Z) (target : option Z)
| Vp (user_id : Z) (user_name : string) (stamp : Z) (voice : option Z)
| Leaderboard
| Whois (g : string) (fetch_user : Z -> option string)
| Mylink (user_id : Z)
| Help.

Definition step (cfg : config) (py : py_str) (st : bot_state) (e : event)
    : bot_state :=
  match e with
  | VoiceStateUpdate i n b a now stamp =>
      on_voice_state_update st i n b a now stamp
  | CheckVoiceStates t stamps => check_voice_states cfg st t stamps
  | Verify i n c s1 s2 => snd (verify_command py st i n c s1 s2)
  | Unlink adm i t => snd (unlink_command st adm i t)
  | Vp i n s v => snd (vp_command cfg st i n s v)
  | Leaderboard => snd (leaderboard_command st)
  | Whois g fetch => snd (whois_command st g fetch)
  | Mylink i => snd (mylink_command st i)
  | Help => snd (help_command st)
  end.

Definition run (cfg : config) (py : py_str) (st : bot_state)
    (evs : list event) : bot_state :=
  foldl (step cfg py) st evs.

(** ** Start-up: the module from its first line to [bot.run] *)

(** How a start of the script ends: [exit(1)], an exception nothing
    catches, or the bot serving under the configuration it has read. *)
Inductive startup :=
| Exit (status : Z)
| Uncaught (e : exn)
| Serving (token : string) (cfg : config).

(** The module-level statements in their order, then the [__main__]
    block.
    - [DISCORD_TOKEN] is [os.getenv('DISCORD_TOKEN')]: unset, or a string
      that is falsy when empty.
    - [vp_id] and [gems_id] are the outcomes of
      [int(os.getenv('VP_CHANNEL_ID', '0'))] and
      [int(os.getenv('GEMS_CHANNEL_ID', '0'))]: [None] where [int] raises
      [ValueError] (an unset variable gives [Some 0]).
    - [db_init] is the exception [db = Database()] raises while it opens
      the file and creates the tables, if it raises one.
    - [bot_run token] is the exception [bot.run(token)] raises, [None]
      while it keeps running. *)
Definition main (DISCORD_TOKEN : option string) (vp_id gems_id : option Z)
    (db_init : option exn) (bot_run : string -> option exn) : startup :=
  match vp_id with
  | None => Uncaught ValueError
  | Some vp_channel =>
      match gems_id with
      | None => Uncaught ValueError
      | Some gems_channel =>
          match db_init with
          | Some e => Uncaught e
          | None =>
              match DISCORD_TOKEN with
              | None => Exit 1
              | Some EmptyString => Exit 1
              | Some token =>
                  match bot_run token with
                  | Some e => Uncaught e
                  | None => Serving token (Config vp_channel gems_channel)
                  end
              end
          end
      end
  end.

(** The status the process ends with: the argument of [exit], 1 after an
    uncaught exception, none while the bot serves. *)
Definition exit_status (s : startup) : option Z :=
  match s with
  | Exit status => Some status
  | Uncaught _ => Some 1
  | Serving _ _ => None
  end.

(** ** Sequences of store operations *)

Inductive store_op :=
| Create (discord_id : Z) (name : string) (stamp : Z)
| Credit (discord_id amount stamp : Z)
| Debit (discord_id amount : Z).

Definition apply_op (db : gmap Z balance_row) (op : store_op)
    : gmap Z balance_row :=
  match op with
  | Create i n s => snd (Database.get_or_create_user db i n s)
  | Credit i a s => snd (Database.add_vp db i a s)
  | Debit i a => snd (Database.spend_vp db i a)
  end.

Definition run_ops (db : gmap Z balance_row) (ops : list store_op)
    : gmap Z balance_row :=
  foldl apply_op db ops.

Definition amount_nonneg (op : store_op) : Prop :=
  match op with
  | Create _ _ _ => True
  | Credit _ a _ => 0 <= a
  | Debit _ a => 0 <= a
  end.

(** Current VP never above lifetime-earned VP, for every row. *)
Definition balance_inv (db : gmap Z balance_row) : Prop :=
  forall i r, db !! i = Some r -> vp r <= total_earned r.

(** No row of the links table carries the pending code [code]. *)
Definition code_unused (code : string) (links : gmap Z link_row) : Prop :=
  forall k r, links !! k = Some r -> pending_code r <> Some code.

(** A store operation that does not credit a negative amount. *)
Definition credit_nonneg (op : store_op) : Prop :=
  match op with
  | Credit _ a _ => 0 <= a
  | _ => True
  end.

(** What becomes of a balance row that is only ever credited: the name
    stays, the current VP does not drop, and current and lifetime-earned
    VP move together. *)
Definition carried (r r' : balance_row) : Prop :=
  discord_name r' = discord_name r /\
  vp r <= vp r' /\
  total_earned r' - vp r' = total_earned r - vp r.

(** * Properties *)

(** ** The store: credit and debit *)

Section StoreRows.
Implicit Types (db : gmap Z balance_row) (row : balance_row).

(** An [UPDATE ... WHERE discord_id=?] on a known key rewrites that row. *)
Lemma alter_known (f : balance_row -> balance_row) db i row :
  db !! i = Some row -> alter f i db = <[i := f row]> db.
Proof.
  intros Hi. apply map_eq. intros j.
  destruct (decide (i = j)) as [<-|Hne].
  - by rewrite lookup_alter_eq, lookup_insert_eq, Hi.
  - by rewrite lookup_alter_ne, lookup_insert_ne.
Qed.

(** ... and on an unknown key it changes nothing. *)
Lemma alter_unknown (f : balance_row -> balance_row) db i :
  db !! i = None -> alter f i db = db.
Proof.
  intros Hi. apply map_eq. intros j.
  destruct (decide (i = j)) as [<-|Hne].
  - by rewrite lookup_alter_eq, Hi.
  - by rewrite lookup_alter_ne.
Qed.

Lemma add_vp_known db i amount stamp row :
  db !! i = Some row ->
  Database.add_vp db i amount stamp =
    (vp row + amount,
     <[i := BalanceRow (discord_name row) (vp row + amount)
              (total_earned row + amount) stamp]> db).
Proof.
  intros Hi. unfold Database.add_vp.
  rewrite (alter_known _ _ _ _ Hi). by rewrite lookup_insert_eq.
Qed.

Lemma add_vp_unknown db i amount stamp :
  db !! i = None -> Database.add_vp db i amount stamp = (0, db).
Proof.
  intros Hi. unfold Database.add_vp.
  rewrite (alter_unknown _ _ _ Hi). by rewrite Hi.
Qed.

Lemma spend_vp_refused db i amount row :
  db !! i = Some row -> vp row < amount ->
  Database.spend_vp db i amount = (false, db).
Proof.
  intros Hi Hlt. unfold Database.spend_vp. rewrite Hi.
  by destruct (Z.ltb_spec (vp row) amount); [|lia].
Qed.

Lemma spend_vp_granted db i amount row :
  db !! i = Some row -> amount <= vp row ->
  Database.spend_vp db i amount =
    (true,
     <[i := BalanceRow (discord_name row) (vp row - amount)
              (total_earned row) (last_seen row)]> db).
Proof.
  intros Hi Hle. unfold Database.spend_vp. rewrite Hi.
  destruct (Z.ltb_spec (vp row) amount); [lia|].
  by rewrite (alter_known _ _ _ _ Hi).
Qed.

Lemma spend_vp_unknown db i amount :
  db !! i = None -> Database.spend_vp db i amount = (false, db).
Proof. intros Hi. unfold Database.spend_vp. by rewrite Hi. Qed.

Lemma get_or_create_known db i name stamp row :
  db !! i = Some row ->
  Database.get_or_create_user db i name stamp = (Some row, db).
Proof. intros Hi. unfold Database.get_or_create_user. by rewrite Hi. Qed.

Lemma get_or_create_unknown db i name stamp :
  db !! i = None ->
  Database.get_or_create_user db i name stamp =
    (Some (BalanceRow name 0 0 stamp),
     <[i := BalanceRow name 0 0 stamp]> db).
Proof.
  intros Hi. unfold Database.get_or_create_user.
  by rewrite Hi, lookup_insert_eq.
Qed.
End StoreRows.

(** C3: on an existing balance record, [spend_vp] (the spec's [debitVP])
    returns [False] and leaves the store as it was when the amount exceeds
    the current VP; otherwise it returns [True] and the record's current VP
    has dropped by exactly the amount, its lifetime-earned VP (and every
    other column and row) being as before. *)
Theorem spend_vp_debit (db : gmap Z balance_row) (i amount : Z)
    (row : balance_row) :
  db !! i = Some row ->
  (vp row < amount -> Database.spend_vp db i amount = (false, db)) /\
  (amount <= vp row ->
   Database.spend_vp db i amount =
     (true,
      <[i := BalanceRow (discord_name row) (vp row - amount)
               (total_earned row) (last_seen row)]> db)).
Proof.
  intros Hi. split; intros H.
  - by apply spend_vp_refused with row.
  - by apply spend_vp_granted.
Qed.

Lemma spend_vp_debit_witness :
  Database.spend_vp {[ 7 := BalanceRow "ann" 5 9 0 ]} 7 6 =
    (false, {[ 7 := BalanceRow "ann" 5 9 0 ]}) /\
  Database.spend_vp {[ 7 := BalanceRow "ann" 5 9 0 ]} 7 5 =
    (true, <[7 := BalanceRow "ann" 0 9 0]> {[ 7 := BalanceRow "ann" 5 9 0 ]}).
Proof.
  pose proof (spend_vp_debit {[ 7 := BalanceRow "ann" 5 9 0 ]} 7 6
                (BalanceRow "ann" 5 9 0) eq_refl) as [H6 _].
  pose proof (spend_vp_debit {[ 7 := BalanceRow "ann" 5 9 0 ]} 7 5
                (BalanceRow "ann" 5 9 0) eq_refl) as [_ H5].
  split; [apply H6 | apply H5]; simpl; lia.
Defined.

(** C7: for an identity without a balance record [add_vp] (the spec's
    [creditVP]) returns 0 and leaves the store untouched, creating no
    record; for an existing record it adds the amount to both the current
    and the lifetime-earned VP and returns the resulting current VP. *)
Theorem add_vp_credit (db : gmap Z balance_row) (i amount stamp : Z) :
  (db !! i = None ->
   Database.add_vp db i amount stamp = (0, db) /\
   snd (Database.add_vp db i amount stamp) !! i = None) /\
  (forall row, db !! i = Some row ->
   Database.add_vp db i amount stamp =
     (vp row + amount,
      <[i := BalanceRow (discord_name row) (vp row + amount)
               (total_earned row + amount) stamp]> db)).
Proof.
  split.
  - intros Hi. rewrite (add_vp_unknown _ _ _ _ Hi). by split.
  - intros row Hi. by apply add_vp_known.
Qed.

Lemma add_vp_credit_witness :
  Database.add_vp {[ 7 := BalanceRow "ann" 5 9 0 ]} 8 3 40 =
    (0, {[ 7 := BalanceRow "ann" 5 9 0 ]}) /\
  Database.add_vp {[ 7 := BalanceRow "ann" 5 9 0 ]} 7 3 40 =
    (8, <[7 := BalanceRow "ann" 8 12 40]> {[ 7 := BalanceRow "ann" 5 9 0 ]}).
Proof.
  destruct (add_vp_credit {[ 7 := BalanceRow "ann" 5 9 0 ]} 8 3 40)
    as [Habsent _].
  destruct (add_vp_credit {[ 7 := BalanceRow "ann" 5 9 0 ]} 7 3 40)
    as [_ Hpresent].
  split.
  - apply Habsent. reflexivity.
  - apply (Hpresent (BalanceRow "ann" 5 9 0)). reflexivity.
Defined.

(** C10: for an identity without a balance record [spend_vp] returns
    [False] whatever the amount (zero included); the store is returned as
    it was, so no record is created and no row changes. *)
Theorem spend_vp_no_record (db : gmap Z balance_row) (i amount : Z) :
  db !! i = None ->
  Database.spend_vp db i amount = (false, db).
Proof. apply spend_vp_unknown. Qed.

Lemma spend_vp_no_record_witness :
  Database.spend_vp {[ 7 := BalanceRow "ann" 5 9 0 ]} 8 0 =
    (false, {[ 7 := BalanceRow "ann" 5 9 0 ]}).
Proof.
  apply (spend_vp_no_record {[ 7 := BalanceRow "ann" 5 9 0 ]} 8 0).
  reflexivity.
Defined.

(** ** The store: sequences of operations *)

Section StoreSequences.
Implicit Types (db : gmap Z balance_row) (op : store_op).

Lemma apply_op_inv db op :
  balance_inv db -> amount_nonneg op -> balance_inv (apply_op db op).
Proof.
  intros Hinv Hop j r. destruct op as [i n s|i a s|i a]; cbn [apply_op amount_nonneg] in *.
  - destruct (db !! i) as [row|] eqn:Hi.
    + rewrite (get_or_create_known _ _ _ _ _ Hi). apply Hinv.
    + rewrite (get_or_create_unknown _ _ _ _ Hi). simpl.
      destruct (decide (i = j)) as [<-|Hne].
      * rewrite lookup_insert_eq. intros [= <-]. simpl. lia.
      * rewrite lookup_insert_ne by done. apply Hinv.
  - destruct (db !! i) as [row|] eqn:Hi.
    + rewrite (add_vp_known _ _ _ _ _ Hi). simpl.
      destruct (decide (i = j)) as [<-|Hne].
      * rewrite lookup_insert_eq. intros [= <-]. simpl.
        specialize (Hinv _ _ Hi). lia.
      * rewrite lookup_insert_ne by done. apply Hinv.
    + rewrite (add_vp_unknown _ _ _ _ Hi). apply Hinv.
  - destruct (db !! i) as [row|] eqn:Hi.
    + destruct (Z_lt_le_dec (vp row) a) as [Hlt|Hle].
      * rewrite (spend_vp_refused _ _ _ _ Hi Hlt). apply Hinv.
      * rewrite (spend_vp_granted _ _ _ _ Hi Hle). simpl.
        destruct (decide (i = j)) as [<-|Hne].
        -- rewrite lookup_insert_eq. intros [= <-]. simpl.
           specialize (Hinv _ _ Hi). lia.
        -- rewrite lookup_insert_ne by done. apply Hinv.
    + rewrite (spend_vp_unknown _ _ _ Hi). apply Hinv.
Qed.

Lemma apply_op_mono db op j r :
  amount_nonneg op -> db !! j = Some r ->
  exists r', apply_op db op !! j = Some r' /\
             total_earned r <= total_earned r'.
Proof.
  intros Hop Hj. destruct op as [i n s|i a s|i a]; cbn [apply_op amount_nonneg] in *.
  - destruct (db !! i) as [row|] eqn:Hi.
    + rewrite (get_or_create_known _ _ _ _ _ Hi).
      exists r. split; [done|lia].
    + rewrite (get_or_create_unknown _ _ _ _ Hi). simpl.
      exists r. split; [|lia].
      rewrite lookup_insert_ne; [done|]. intros ->. congruence.
  - destruct (db !! i) as [row|] eqn:Hi.
    + rewrite (add_vp_known _ _ _ _ _ Hi). simpl.
      destruct (decide (i = j)) as [->|Hne].
      * rewrite lookup_insert_eq. eexists. split; [done|]. simpl.
        assert (row = r) as -> by congruence. lia.
      * rewrite lookup_insert_ne by done. exists r. split; [done|lia].
    + rewrite (add_vp_unknown _ _ _ _ Hi). exists r. split; [done|lia].
  - destruct (db !! i) as [row|] eqn:Hi.
    + destruct (Z_lt_le_dec (vp row) a) as [Hlt|Hle].
      * rewrite (spend_vp_refused _ _ _ _ Hi Hlt).
        exists r. split; [done|lia].
      * rewrite (spend_vp_granted _ _ _ _ Hi Hle). simpl.
        destruct (decide (i = j)) as [->|Hne].
        -- rewrite lookup_insert_eq. eexists. split; [done|]. simpl.
           assert (row = r) as -> by congruence. lia.
        -- rewrite lookup_insert_ne by done. exists r. split; [done|lia].
    + rewrite (spend_vp_unknown _ _ _ Hi). exists r. split; [done|lia].
Qed.

Lemma run_ops_app db ops1 ops2 :
  run_ops db (ops1 ++ ops2) = run_ops (run_ops db ops1) ops2.
Proof. apply foldl_app. Qed.

Lemma run_ops_inv ops : forall db,
  balance_inv db -> Forall amount_nonneg ops ->
  balance_inv (run_ops db ops).
Proof.
  induction ops as [|op ops IH]; intros db Hinv Hops; [done|].
  inversion Hops; subst. simpl. apply IH; [|done].
  by apply apply_op_inv.
Qed.

Lemma run_ops_mono ops : forall db j r,
  Forall amount_nonneg ops -> db !! j = Some r ->
  exists r', run_ops db ops !! j = Some r' /\
             total_earned r <= total_earned r'.
Proof.
  induction ops as [|op ops IH]; intros db j r Hops Hj.
  - exists r. split; [done|lia].
  - inversion Hops; subst. simpl.
    destruct (apply_op_mono db op j r) as (r1 & Hr1 & Hle1); [done..|].
    destruct (IH _ _ _ ltac:(done) Hr1) as (r2 & Hr2 & Hle2).
    exists r2. split; [done|lia].
Qed.
End StoreSequences.

(** C4, as stated, fails: the store takes any integer as an amount, and
    debiting -1 from a fresh record leaves 1 current VP against 0
    lifetime-earned, while crediting -1 lowers the lifetime-earned VP. *)
Lemma store_ops_negative_amount :
  balance_inv ∅ /\
  ~ balance_inv (run_ops ∅ [Create 1 "ann" 0; Debit 1 (-1)]) /\
  total_earned <$> (run_ops ∅ [Create 1 "ann" 0; Credit 1 (-1) 0] !! 1)
    = Some (-1).
Proof.
  split; [|split].
  - intros i r Hi. by rewrite lookup_empty in Hi.
  - intros Hinv.
    specialize (Hinv 1 (BalanceRow "ann" 1 0 0) eq_refl). simpl in Hinv. lia.
  - reflexivity.
Qed.

(** C4 (amended): along every sequence of create, credit and debit
    operations whose amounts are non-negative, run from a store in which
    every record has current VP <= lifetime-earned VP, that inequality
    holds for every record after every prefix of the sequence, and a
    record present after a prefix is still present at the end with a
    lifetime-earned VP at least as large. *)
Theorem store_ops_invariant (db : gmap Z balance_row)
    (ops pre post : list store_op) :
  balance_inv db ->
  Forall amount_nonneg ops ->
  ops = pre ++ post ->
  balance_inv (run_ops db pre) /\
  (forall i r, run_ops db pre !! i = Some r ->
     exists r', run_ops db ops !! i = Some r' /\
                total_earned r <= total_earned r').
Proof.
  intros Hinv Hops ->. apply Forall_app in Hops as [Hpre Hpost]. split.
  - by apply run_ops_inv.
  - intros i r Hi. rewrite run_ops_app. by apply run_ops_mono.
Qed.

Lemma store_ops_invariant_witness :
  balance_inv (run_ops ∅ [Create 1 "ann" 0; Credit 1 4 60]) /\
  (forall i r,
     run_ops ∅ [Create 1 "ann" 0; Credit 1 4 60] !! i = Some r ->
     exists r',
       run_ops ∅ [Create 1 "ann" 0; Credit 1 4 60; Debit 1 3] !! i = Some r' /\
       total_earned r <= total_earned r').
Proof.
  apply (store_ops_invariant ∅ [Create 1 "ann" 0; Credit 1 4 60; Debit 1 3]
           [Create 1 "ann" 0; Credit 1 4 60] [Debit 1 3]).
  - intros i r Hi. by rewrite lookup_empty in Hi.
  - repeat constructor; simpl; lia.
  - reflexivity.
Defined.

(** ** The leaderboard *)

Section StableSortFacts.
Context {A : Type} (le : A -> A -> bool).

Lemma sort_insert_perm x l : sort_insert le x l ≡ₚ x :: l.
Proof.
  induction l as [|y l IH]; simpl; [done|].
  destruct (le x y); [done|].
  rewrite IH. apply Permutation_swap.
Qed.

Lemma stable_sort_perm l : stable_sort le l ≡ₚ l.
Proof.
  induction l as [|x l IH]; simpl; [done|].
  by rewrite sort_insert_perm, IH.
Qed.

Hypothesis le_total : forall x y, le x y = true \/ le y x = true.
Hypothesis le_trans :
  forall x y z, le x y = true -> le y z = true -> le x z = true.

Let ordered := StronglySorted (fun x y => le x y = true).

Lemma sort_insert_sorted x l : ordered l -> ordered (sort_insert le x l).
Proof.
  induction 1 as [|y l Hl IH Hy]; simpl.
  - repeat constructor.
  - destruct (le x y) eqn:Hxy.
    + constructor; [by constructor|].
      constructor; [done|].
      eapply Forall_impl; [exact Hy|]. intros z Hz. eauto.
    + constructor; [done|].
      rewrite sort_insert_perm. constructor; [|done].
      destruct (le_total x y); congruence.
Qed.

Lemma stable_sort_sorted l : ordered (stable_sort le l).
Proof.
  induction l as [|x l IH]; simpl; [constructor|].
  by apply sort_insert_sorted.
Qed.
End StableSortFacts.

Lemma sql_limit_take {A : Type} (n : Z) (l : list A) :
  exists k, sql_limit n l = take k l /\ (0 <= n -> k = Z.to_nat n).
Proof.
  unfold sql_limit. destruct (Z.ltb_spec n 0).
  - exists (length l). split; [by rewrite firstn_all|lia].
  - by exists (Z.to_nat n).
Qed.

Lemma table_rows_perm {V : Type} (t : gmap Z V) :
  table_rows t ≡ₚ map_to_list t.
Proof. apply stable_sort_perm. Qed.

(** The query for any integer bound to [LIMIT ?], negative ones included:
    the result is a prefix of the rows in descending order. *)
Lemma get_leaderboard_any_limit (db : gmap Z balance_row) (limit : Z) :
  (0 <= limit ->
   Z.of_nat (length (Database.get_leaderboard db limit)) <= limit) /\
  StronglySorted (fun a b => snd b <= snd a)
    (Database.get_leaderboard db limit) /\
  exists omitted,
    map board_entry (map_to_list db)
      ≡ₚ Database.get_leaderboard db limit ++ omitted /\
    forall x y, x ∈ omitted ->
      last (Database.get_leaderboard db limit) = Some y ->
      snd x <= snd y.
Proof.
  unfold Database.get_leaderboard.
  set (desc := fun a b : Z * balance_row =>
                 total_earned (snd b) <=? total_earned (snd a)).
  set (sorted := map _ (stable_sort desc (table_rows db))).
  assert (StronglySorted (fun a b : string * Z => snd b <= snd a) sorted)
    as Hsorted.
  { subst sorted.
    apply (StronglySorted_fmap _ (fun a b => desc a b = true)).
    - intros a b Hab. simpl. unfold desc in Hab. lia.
    - apply stable_sort_sorted; unfold desc; intros; lia. }
  assert (map board_entry (map_to_list db) ≡ₚ sorted) as Hperm.
  { subst sorted. by rewrite stable_sort_perm, table_rows_perm. }
  destruct (sql_limit_take limit sorted) as (k & -> & Hk).
  rewrite <- (take_drop k sorted) in Hsorted, Hperm.
  split; [|split].
  - intros Hlimit. rewrite length_take, (Hk Hlimit). lia.
  - by apply StronglySorted_app_1_l in Hsorted.
  - exists (drop k sorted). split; [done|].
    intros x y Hx Hy. apply last_Some in Hy as [l' Hy].
    eapply (StronglySorted_app_1_elem_of _ _ _ y x Hsorted); [|done].
    rewrite Hy. set_solver.
Qed.

(** C8: for every store and every limit (a count of entries),
    [get_leaderboard] (the spec's [topEarners]) returns at most [limit]
    entries; they are (display name, lifetime-earned) pairs of balance
    records in descending order of lifetime-earned VP (each entry's is >=
    that of every later entry, hence of the next one); and every record
    left out has a lifetime-earned VP <= that of the last entry
    returned. *)
Theorem get_leaderboard_top (db : gmap Z balance_row) (limit : nat) :
  (length (Database.get_leaderboard db (Z.of_nat limit)) <= limit)%nat /\
  StronglySorted (fun a b => snd b <= snd a)
    (Database.get_leaderboard db (Z.of_nat limit)) /\
  exists omitted,
    map board_entry (map_to_list db)
      ≡ₚ Database.get_leaderboard db (Z.of_nat limit) ++ omitted /\
    forall x y, x ∈ omitted ->
      last (Database.get_leaderboard db (Z.of_nat limit)) = Some y ->
      snd x <= snd y.
Proof.
  destruct (get_leaderboard_any_limit db (Z.of_nat limit))
    as (Hlen & Hsorted & Homitted).
  split; [|by split]. specialize (Hlen ltac:(lia)). lia.
Qed.

Lemma get_leaderboard_top_witness :
  Database.get_leaderboard
    (<[1 := BalanceRow "ann" 0 5 0]>
       (<[2 := BalanceRow "bob" 3 9 0]> {[ 3 := BalanceRow "cy" 1 7 0 ]})) 2
    = [("bob", 9); ("cy", 7)] /\
  (length (Database.get_leaderboard
    (<[1 := BalanceRow "ann" 0 5 0]>
       (<[2 := BalanceRow "bob" 3 9 0]> {[ 3 := BalanceRow "cy" 1 7 0 ]}))%Z
    2) <= 2)%nat /\
  StronglySorted (fun a b => snd b <= snd a)
    (Database.get_leaderboard
       (<[1 := BalanceRow "ann" 0 5 0]>
          (<[2 := BalanceRow "bob" 3 9 0]> {[ 3 := BalanceRow "cy" 1 7 0 ]}))
       2).
Proof.
  split; [reflexivity|].
  destruct (get_leaderboard_top
              (<[1 := BalanceRow "ann" 0 5 0]>
                 (<[2 := BalanceRow "bob" 3 9 0]>
                    {[ 3 := BalanceRow "cy" 1 7 0 ]})) 2)
    as (Hlen & Hsorted & _).
  split; [exact Hlen | exact Hsorted].
Defined.

(** ** The accrual loop *)

Lemma py_int_floor q : (0 <= q)%Q -> py_int q = Qfloor q.
Proof.
  destruct q as [n d]. unfold Qle, py_int. simpl. intros H.
  apply Z.quot_div_nonneg; lia.
Qed.

(** Doubling before flooring gains at most one over doubling after. *)
Lemma Qfloor_double q :
  2 * Qfloor q <= Qfloor (q * inject_Z 2) <= 2 * Qfloor q + 1.
Proof.
  destruct q as [n d]. simpl.
  replace (Z.pos (d * 1)) with (Z.pos d) by lia.
  pose proof (Z.div_mod n (Z.pos d) ltac:(lia)) as Hn.
  pose proof (Z.mod_pos_bound n (Z.pos d) ltac:(lia)) as Hr.
  split.
  - apply Z.div_le_lower_bound; [lia|]. nia.
  - apply Z.lt_succ_r. apply Z.div_lt_upper_bound; [lia|]. nia.
Qed.

Lemma Qfloor_double_whole (k : Z) q :
  (q == inject_Z k)%Q -> Qfloor (q * inject_Z 2) = 2 * k.
Proof.
  intros H. rewrite H, <- inject_Z_mult, Qfloor_Z. lia.
Qed.

Lemma earned_floor q :
  (1 <= q)%Q ->
  py_int (q * inject_Z VP_PER_MINUTE) = Qfloor (q * inject_Z VP_PER_MINUTE)
  /\ 2 <= Qfloor (q * inject_Z VP_PER_MINUTE).
Proof.
  intros H. unfold VP_PER_MINUTE. split.
  - apply py_int_floor. apply Qmult_le_0_compat; [|done].
    eapply Qle_trans; [|exact H]. done.
  - pose proof (Qfloor_double q). assert (1 <= Qfloor q); [|lia].
    change 1 with (Qfloor 1). by apply Qfloor_resp_le.
Qed.

Section AwardLoop.
Variables (cfg : config) (current_time : Q) (stamps : Z -> Z).
Implicit Types (acc : gmap Z balance_row * gmap Z track_entry).

Let body := award cfg current_time stamps.

(** An iteration leaves every key other than its own alone. *)
Lemma award_other acc item j :
  fst item <> j ->
  fst (body acc item) !! j = fst acc !! j /\
  snd (body acc item) !! j = snd acc !! j.
Proof.
  intros Hne. subst body. unfold award, Database.add_vp.
  repeat case_match; simpl; by rewrite ?lookup_alter_ne.
Qed.

(** What an iteration does at its own key depends on that key only. *)
Lemma award_local acc acc' i e :
  fst acc !! i = fst acc' !! i -> snd acc !! i = snd acc' !! i ->
  fst (body acc (i, e)) !! i = fst (body acc' (i, e)) !! i /\
  snd (body acc (i, e)) !! i = snd (body acc' (i, e)) !! i.
Proof.
  intros H1 H2. subst body. unfold award, Database.add_vp. simpl.
  repeat case_match; simpl; by rewrite ?lookup_alter_eq, ?H1, ?H2.
Qed.

Lemma award_fold_other l : forall acc j,
  j ∉ l.*1 ->
  fst (foldl body acc l) !! j = fst acc !! j /\
  snd (foldl body acc l) !! j = snd acc !! j.
Proof.
  induction l as [|item l IH]; intros acc j Hj; [done|].
  rewrite fmap_cons, not_elem_of_cons in Hj. destruct Hj as [Hne Hj].
  simpl. destruct (IH (body acc item) j Hj) as [-> ->].
  by apply award_other.
Qed.

Lemma award_fold_hit l : forall acc i e,
  NoDup l.*1 -> (i, e) ∈ l ->
  fst (foldl body acc l) !! i = fst (body acc (i, e)) !! i /\
  snd (foldl body acc l) !! i = snd (body acc (i, e)) !! i.
Proof.
  induction l as [|item l IH]; intros acc i e Hnd Hin.
  { by apply elem_of_nil in Hin. }
  rewrite fmap_cons, NoDup_cons in Hnd. destruct Hnd as [Hfresh Hnd].
  apply elem_of_cons in Hin as [<-|Hin]; simpl.
  - by apply award_fold_other.
  - destruct (IH (body acc item) i e Hnd Hin) as [-> ->].
    assert (fst item <> i) as Hne.
    { intros Heq. apply Hfresh. rewrite Heq.
      apply list_elem_of_fmap. by exists (i, e). }
    destruct (award_other acc item i Hne) as [H1 H2].
    by apply award_local.
Qed.

(** The accrual loop keeps display names, and keeps who is tracked and
    in which channel. *)
Lemma award_keeps acc item j :
  discord_name <$> fst (body acc item) !! j = discord_name <$> fst acc !! j
  /\ channel_id <$> snd (body acc item) !! j = channel_id <$> snd acc !! j.
Proof.
  destruct (decide (fst item = j)) as [<-|Hne].
  - subst body. unfold award.
    destruct (Qle_bool _ _); [|done].
    destruct (_ =? _); [|done].
    destruct (0 <? _); [|done].
    unfold Database.add_vp. simpl. rewrite !lookup_alter_eq.
    split; [by destruct (acc.1 !! item.1)|by destruct (acc.2 !! item.1)].
  - by destruct (award_other acc item j Hne) as [-> ->].
Qed.

Lemma award_fold_keeps l : forall acc j,
  discord_name <$> fst (foldl body acc l) !! j = discord_name <$> fst acc !! j
  /\ channel_id <$> snd (foldl body acc l) !! j = channel_id <$> snd acc !! j.
Proof.
  induction l as [|item l IH]; intros acc j; [done|].
  simpl. destruct (IH (body acc item) j) as [-> ->].
  apply award_keeps.
Qed.
End AwardLoop.

(** C1, as stated, fails: the loop multiplies the fractional number of
    minutes by the rate before truncating.  Two and a half minutes at rate
    2 earn [int(2.5 * 2) = 5] VP, not [floor(2.5) * 2 = 4]. *)
Lemma accrual_two_and_a_half_minutes :
  vp <$> vp_balance
           (check_voice_states (Config 100 200)
              (BotState {[ 1 := BalanceRow "ann" 0 0 0 ]} ∅
                        {[ 1 := TrackEntry 100 0 ]})
              150 (fun _ => 150)) !! 1 = Some 5 /\
  Qfloor ((150 - 0) / 60) * VP_PER_MINUTE = 4.
Proof. split; reflexivity. Qed.

(** C1 (amended): at a tick, every presence entry in the reward channel
    whose elapsed time is at least one minute has its baseline reset to the
    tick's time, and the identity's balance record (when it has one) is
    credited, on both current and lifetime-earned VP, exactly
    [floor((now - since) / 60 * VP_PER_MINUTE)]: the rate applies to the
    fractional minutes and the product is truncated.  That amount is
    [floor(elapsedMinutes) * VP_PER_MINUTE] or one more, and equals it when
    the elapsed time is a whole number of minutes. *)
Theorem check_voice_states_credit (cfg : config) (st : bot_state)
    (now : Q) (stamps : Z -> Z) (i : Z) (e : track_entry) :
  voice_tracking st !! i = Some e ->
  channel_id e = VP_CHANNEL_ID cfg ->
  (1 <= (now - joined_at e) / 60)%Q ->
  let earned := Qfloor ((now - joined_at e) / 60 * inject_Z VP_PER_MINUTE) in
  let elapsed_minutes := Qfloor ((now - joined_at e) / 60) in
  let st' := check_voice_states cfg st now stamps in
  voice_tracking st' !! i = Some (TrackEntry (channel_id e) now) /\
  vp_balance st' !! i =
    (fun row => BalanceRow (discord_name row) (vp row + earned)
                           (total_earned row + earned) (stamps i))
      <$> vp_balance st !! i /\
  elapsed_minutes * VP_PER_MINUTE <= earned
    <= elapsed_minutes * VP_PER_MINUTE + 1 /\
  (forall k, ((now - joined_at e) / 60 == inject_Z k)%Q ->
             earned = k * VP_PER_MINUTE).
Proof.
  intros Hi Hchan Hmin earned elapsed_minutes st'.
  destruct (earned_floor _ Hmin) as [Hint Hpos]. fold earned in Hint, Hpos.
  assert (NoDup (map_to_list (voice_tracking st)).*1) as Hnd
    by apply NoDup_fst_map_to_list.
  assert ((i, e) ∈ map_to_list (voice_tracking st)) as Hin
    by by apply elem_of_map_to_list.
  destruct (award_fold_hit cfg now stamps _
              (vp_balance st, voice_tracking st) i e Hnd Hin) as [Hdb Htrk].
  assert (award cfg now stamps (vp_balance st, voice_tracking st) (i, e) =
          (snd (Database.add_vp (vp_balance st) i earned (stamps i)),
           alter (fun e => TrackEntry (channel_id e) now) i
                 (voice_tracking st))) as Haward.
  { unfold award. simpl.
    rewrite (proj2 (Qle_bool_iff _ _) Hmin), (proj2 (Z.eqb_eq _ _) Hchan).
    rewrite Hint. by rewrite (proj2 (Z.ltb_lt 0 earned)) by lia. }
  rewrite Haward in Hdb, Htrk. unfold Database.add_vp in Hdb.
  cbn [fst snd] in Hdb, Htrk.
  rewrite lookup_alter_eq in Hdb. rewrite lookup_alter_eq in Htrk.
  split; [|split; [|split]].
  - subst st'. unfold check_voice_states. simpl. by rewrite Htrk, Hi.
  - subst st'. unfold check_voice_states. simpl. by rewrite Hdb.
  - subst earned elapsed_minutes. unfold VP_PER_MINUTE.
    pose proof (Qfloor_double ((now - joined_at e) / 60)). lia.
  - intros k Hk. subst earned. unfold VP_PER_MINUTE.
    rewrite (Qfloor_double_whole k _ Hk). lia.
Qed.

Lemma check_voice_states_credit_witness :
  voice_tracking
    (check_voice_states (Config 100 200)
       (BotState {[ 1 := BalanceRow "ann" 0 0 0 ]} ∅
                 {[ 1 := TrackEntry 100 0 ]})
       61 (fun _ => 61)) !! 1 = Some (TrackEntry 100 61) /\
  vp_balance
    (check_voice_states (Config 100 200)
       (BotState {[ 1 := BalanceRow "ann" 0 0 0 ]} ∅
                 {[ 1 := TrackEntry 100 0 ]})
       61 (fun _ => 61)) !! 1 = Some (BalanceRow "ann" 2 2 61).
Proof.
  destruct (check_voice_states_credit (Config 100 200)
              (BotState {[ 1 := BalanceRow "ann" 0 0 0 ]} ∅
                        {[ 1 := TrackEntry 100 0 ]})
              61 (fun _ => 61) 1 (TrackEntry 100 0))
    as (Htrk & Hdb & _).
  - reflexivity.
  - reflexivity.
  - unfold Qle. simpl. lia.
  - split; [exact Htrk | exact Hdb].
Defined.

(** ** The presence tracker *)

(** C9: the tracker entry of an identity is either missing (ABSENT) or one
    channel with one timestamp (PRESENT).  A join puts PRESENT(channel,
    now); a switch to another channel puts PRESENT(new channel, now); a
    leave removes the entry; an update that changes no channel changes
    nothing; the entries of other identities are never touched; the
    accrual loop neither adds nor removes an entry nor changes its channel;
    and join, switch, leave in a row end with no entry for the identity. *)
Theorem presence_state_machine (st : bot_state) (i : Z) (n : string)
    (c1 c2 : Z) (now : Q) (stamp : Z) :
  c1 <> c2 ->
  voice_tracking (on_voice_state_update st i n None (Some c1) now stamp) !! i
    = Some (TrackEntry c1 now) /\
  voice_tracking (on_voice_state_update st i n (Some c1) (Some c2) now stamp)
    !! i = Some (TrackEntry c2 now) /\
  voice_tracking (on_voice_state_update st i n (Some c1) None now stamp) !! i
    = None /\
  on_voice_state_update st i n (Some c1) (Some c1) now stamp = st /\
  on_voice_state_update st i n None None now stamp = st /\
  (forall before after j, j <> i ->
     voice_tracking (on_voice_state_update st i n before after now stamp) !! j
       = voice_tracking st !! j) /\
  (forall cfg t stamps j,
     channel_id <$> voice_tracking (check_voice_states cfg st t stamps) !! j
       = channel_id <$> voice_tracking st !! j) /\
  (forall n2 n3 t2 t3 s2 s3,
     voice_tracking
       (on_voice_state_update
          (on_voice_state_update
             (on_voice_state_update st i n None (Some c1) now stamp)
             i n2 (Some c1) (Some c2) t2 s2)
          i n3 (Some c2) None t3 s3) !! i = None).
Proof.
  intros Hne. unfold on_voice_state_update.
  rewrite Z.eqb_refl, (proj2 (Z.eqb_neq c1 c2) Hne). simpl.
  repeat split.
  - by rewrite lookup_insert_eq.
  - by rewrite lookup_insert_eq.
  - by rewrite lookup_delete_eq.
  - intros before after j Hj.
    destruct before as [b|], after as [a|]; simpl; try done.
    + destruct (b =? a); simpl; [done|]. by rewrite lookup_insert_ne.
    + by rewrite lookup_delete_ne.
    + by rewrite lookup_insert_ne.
  - intros cfg t stamps j. unfold check_voice_states. simpl.
    by destruct (award_fold_keeps cfg t stamps
                   (map_to_list (voice_tracking st))
                   (vp_balance st, voice_tracking st) j) as [_ ->].
  - intros. by rewrite lookup_delete_eq.
Qed.

Lemma presence_state_machine_witness :
  voice_tracking
    (on_voice_state_update
       (on_voice_state_update
          (on_voice_state_update (BotState ∅ ∅ ∅) 1 "ann" None (Some 100) 0 0)
          1 "ann" (Some 100) (Some 200) 30 30)
       1 "ann" (Some 200) None 45 45) !! 1 = None.
Proof.
  destruct (presence_state_machine (BotState ∅ ∅ ∅) 1 "ann" 100 200 0 0)
    as (_ & _ & _ & _ & _ & _ & _ & Hseq); [lia|].
  apply (Hseq "ann" "ann" 30%Q 45%Q 30 45).
Defined.

(** ** Display names *)

Lemma get_or_create_keeps (db : gmap Z balance_row) i n s j row :
  db !! j = Some row ->
  snd (Database.get_or_create_user db i n s) !! j = Some row.
Proof.
  intros Hj. destruct (db !! i) as [r|] eqn:Hi.
  - by rewrite (get_or_create_known _ _ _ _ _ Hi).
  - rewrite (get_or_create_unknown _ _ _ _ Hi). simpl.
    rewrite lookup_insert_ne; [done|]. intros ->. congruence.
Qed.

Lemma get_or_create_names (db : gmap Z balance_row) i n s j row :
  db !! j = Some row ->
  discord_name <$> snd (Database.get_or_create_user db i n s) !! j
    = Some (discord_name row).
Proof. intros Hj. by rewrite (get_or_create_keeps _ _ _ _ _ _ Hj). Qed.

(** ** The verification handshake *)

Section Handshake.
Implicit Types (links : gmap Z link_row) (st : bot_state).

Lemma find_pending_Some links code p :
  find_pending links code = Some p ->
  links !! fst p = Some (snd p) /\
  pending_code (snd p) = Some code /\ verified (snd p) = 0.
Proof.
  unfold find_pending. intros Hp. apply head_Some_elem_of in Hp.
  apply list_elem_of_filter in Hp as [[Hcode Hver] Hin].
  rewrite table_rows_perm in Hin. destruct p as [k r].
  by apply elem_of_map_to_list in Hin.
Qed.

Lemma find_pending_unused links code :
  code_unused code links -> find_pending links code = None.
Proof.
  intros Hun. destruct (find_pending links code) as [p|] eqn:Hp; [|done].
  apply find_pending_Some in Hp as (Hk & Hcode & _).
  by destruct (Hun _ _ Hk).
Qed.

(** A row of the table after the [UPDATE] is a rebound row, or a row the
    table already had under the same key. *)
Lemma update_rebind_rows links i s code links' :
  update_rebind links i s code = inr links' ->
  forall k r, links' !! k = Some r ->
    pending_code r = None \/ links !! k = Some r.
Proof.
  unfold update_rebind. intros Hup k r Hk.
  destruct (map_to_list (filter _ links)) as [|kr [|kr' hits]];
    [|destruct (filter _ links !! i) eqn:Hi|]; simplify_eq; [by right|].
  destruct (decide (i = k)) as [->|Hne].
  - rewrite lookup_insert_eq in Hk. simplify_eq. by left.
  - rewrite lookup_insert_ne in Hk by done.
    apply map_lookup_filter_Some in Hk as [Hk _]. by right.
Qed.

(** A successful [UPDATE] leaves the code it matched on no row. *)
Lemma update_rebind_consumes links i s code links' p :
  find_pending links code = Some p ->
  update_rebind links i s code = inr links' ->
  code_unused code links'.
Proof.
  unfold update_rebind. intros Hp Hup k r Hk.
  apply find_pending_Some in Hp as (Hpk & Hcode & _).
  destruct (map_to_list (filter _ links)) as [|kr [|kr' hits]] eqn:Hhits;
    [|destruct (filter _ links !! i) eqn:Hi|]; try discriminate.
  - apply map_to_list_empty_iff in Hhits.
    assert (filter (fun kr : Z * link_row =>
                      pending_code (snd kr) = Some code) links
            !! fst p = Some (snd p)) as Hin
      by by apply map_lookup_filter_Some.
    by rewrite Hhits, lookup_empty in Hin.
  - injection Hup as <-.
    destruct (decide (i = k)) as [->|Hne].
    + rewrite lookup_insert_eq in Hk. by simplify_eq.
    + rewrite lookup_insert_ne in Hk by done.
      by apply map_lookup_filter_Some in Hk as [_ Hk].
Qed.

Lemma update_rebind_unused links i s code links' c :
  code_unused c links ->
  update_rebind links i s code = inr links' ->
  code_unused c links'.
Proof.
  intros Hun Hup k r Hk.
  destruct (update_rebind_rows _ _ _ _ _ Hup _ _ Hk) as [->|Hold];
    [done|by apply (Hun k)].
Qed.

(** The four ways [/verify] can end. *)
Lemma verify_command_cases py st i n c s1 s2 :
  (exists l, verified_link (discord_links st) i = Some l /\
     verify_command py st i n c s1 s2 =
       (Replied (AlreadyVerified (growid l)), st)) \/
  (verified_link (discord_links st) i = None /\
   find_pending (discord_links st) (upper py (strip py c)) = None /\
   verify_command py st i n c s1 s2 = (Replied InvalidCode, st)) \/
  (verified_link (discord_links st) i = None /\
   exists p e,
     find_pending (discord_links st) (upper py (strip py c)) = Some p /\
     update_rebind (discord_links st) i s1 (upper py (strip py c)) = inl e /\
     verify_command py st i n c s1 s2 = (Raised e, st)) \/
  (verified_link (discord_links st) i = None /\
   exists p links',
     find_pending (discord_links st) (upper py (strip py c)) = Some p /\
     update_rebind (discord_links st) i s1 (upper py (strip py c)) = inr links' /\
     verify_command py st i n c s1 s2 =
       (Replied (VerificationSuccessful (growid (snd p))),
        BotState
          (snd (Database.get_or_create_user (vp_balance st) i n s2))
          links' (voice_tracking st))).
Proof.
  unfold verify_command.
  destruct (verified_link (discord_links st) i) as [l|]; [left; eauto|].
  destruct (find_pending _ _) as [p|]; [|right; left; eauto].
  destruct (update_rebind _ _ _ _) as [e|links'].
  - right; right; left. eauto 10.
  - right; right; right. eauto 10.
Qed.

(** The only exception the [UPDATE] raises. *)
Lemma update_rebind_exn links i s code e :
  update_rebind links i s code = inl e -> e = IntegrityError.
Proof.
  unfold update_rebind. intros Hup.
  destruct (map_to_list (filter _ links)) as [|kr [|kr' hits]];
    [|destruct (filter _ links !! i)|]; by simplify_eq.
Qed.
End Handshake.

(** The read-only commands leave the state alone, however they end. *)
Lemma whois_command_state st g fetch : snd (whois_command st g fetch) = st.
Proof. unfold whois_command. by repeat case_match. Qed.

Lemma mylink_command_state st i : snd (mylink_command st i) = st.
Proof. unfold mylink_command. by repeat case_match. Qed.

Section BotRuns.
Variable cfg : config.
Variable py : py_str.

(** No event of the bot writes a pending code into the links table. *)
Lemma step_code_unused st ev c :
  code_unused c (discord_links st) ->
  code_unused c (discord_links (step cfg py st ev)).
Proof.
  intros Hun.
  destruct ev as [i n b a now s|t stamps|i n code s1 s2|adm i t|i n s v|
                  |g fetch|i|];
    simpl; try done.
  - unfold on_voice_state_update.
    destruct b, a; simpl; try done. by case_match.
  - destruct (verify_command_cases py st i n code s1 s2)
      as [(l & _ & ->)|[(_ & _ & ->)|[(_ & p & e & _ & _ & ->)
         |(_ & p & links' & _ & Hup & ->)]]]; simpl; try done.
    by eapply update_rebind_unused.
  - unfold unlink_command. destruct adm; simpl; [|done].
    case_match; simpl; [|done].
    intros k r Hk. apply lookup_delete_Some in Hk as [_ Hk].
    by apply (Hun k).
  - unfold vp_command. by case_match.
  - by rewrite whois_command_state.
  - by rewrite mylink_command_state.
Qed.

Lemma run_code_unused evs : forall st c,
  code_unused c (discord_links st) ->
  code_unused c (discord_links (run cfg py st evs)).
Proof.
  induction evs as [|ev evs IH]; intros st c Hun; [done|].
  simpl. apply IH. by apply step_code_unused.
Qed.

(** No event of the bot renames an existing balance record. *)
Lemma step_keeps_name st ev j row :
  vp_balance st !! j = Some row ->
  discord_name <$> vp_balance (step cfg py st ev) !! j
    = Some (discord_name row).
Proof.
  intros Hj.
  destruct ev as [i n b a now s|t stamps|i n code s1 s2|adm i t|i n s v|
                  |g fetch|i|];
    simpl.
  - unfold on_voice_state_update.
    destruct b, a; simpl; rewrite ?Hj; try done.
    + case_match; simpl; by rewrite Hj.
    + by apply get_or_create_names.
  - unfold check_voice_states. simpl.
    destruct (award_fold_keeps cfg t stamps
                (map_to_list (voice_tracking st))
                (vp_balance st, voice_tracking st) j) as [-> _].
    simpl. by rewrite Hj.
  - destruct (verify_command_cases py st i n code s1 s2)
      as [(l & _ & ->)|[(_ & _ & ->)|[(_ & p & e & _ & _ & ->)
         |(_ & p & links' & _ & Hup & ->)]]]; simpl; rewrite ?Hj; try done.
    by apply get_or_create_names.
  - unfold unlink_command. destruct adm; simpl; [|by rewrite Hj].
    case_match; simpl; by rewrite Hj.
  - unfold vp_command. case_match; simpl; by apply get_or_create_names.
  - by rewrite Hj.
  - by rewrite whois_command_state, Hj.
  - by rewrite mylink_command_state, Hj.
  - by rewrite Hj.
Qed.
End BotRuns.




(** C2, as stated, fails for a submitter who holds a verified link: the
    check for it comes before the code is looked up, so resubmitting a
    consumed code is answered "already verified", not [InvalidCode].  Here
    identity 5 consumes the code and submits it again. *)
Lemma verify_resubmission_already_verified :
  fst (verify_command ascii_text
         (BotState ∅ {[ 900 := LinkRow "Alice" None 0 (Some "ABC123") ]} ∅)
         5 "ann" "abc123" 10 11)
    = Replied (VerificationSuccessful "Alice") /\
  fst (verify_command ascii_text
         (snd (verify_command ascii_text
                 (BotState ∅
                    {[ 900 := LinkRow "Alice" None 0 (Some "ABC123") ]} ∅)
                 5 "ann" "abc123" 10 11))
         5 "ann" "abc123" 20 21)
    = Replied (AlreadyVerified "Alice") /\
  Replied (AlreadyVerified "Alice") <> Replied InvalidCode.
Proof. split; [reflexivity|split; [reflexivity|discriminate]]. Qed.

(** C2 (amended): once a submission of a code has succeeded, that code
    never succeeds again.  After any further events of the bot, a
    submission of the same code (the same text once trimmed and put in
    upper case) by any identity mutates nothing and is answered
    [InvalidCode], unless the submitter holds a verified link, in which
    case it is answered "already verified". *)
Theorem verify_code_single_use (cfg : config) (py : py_str)
    (st st1 : bot_state)
    (i : Z) (n code g : string) (s1 s2 : Z) (evs : list event)
    (j : Z) (n' code' : string) (s1' s2' : Z) :
  verify_command py st i n code s1 s2
    = (Replied (VerificationSuccessful g), st1) ->
  upper py (strip py code') = upper py (strip py code) ->
  verify_command py (run cfg py st1 evs) j n' code' s1' s2' =
    (Replied
       match verified_link (discord_links (run cfg py st1 evs)) j with
       | Some l => AlreadyVerified (growid l)
       | None => InvalidCode
       end,
     run cfg py st1 evs).
Proof.
  intros Hok Hsame.
  assert (code_unused (upper py (strip py code')) (discord_links st1)) as Hun.
  { rewrite Hsame.
    destruct (verify_command_cases py st i n code s1 s2)
      as [(l & _ & H)|[(_ & _ & H)|[(_ & p & e & _ & _ & H)
         |(_ & p & links' & Hp & Hup & H)]]];
      rewrite H in Hok; simplify_eq.
    simpl. by eapply update_rebind_consumes. }
  apply (run_code_unused cfg py evs) in Hun.
  apply find_pending_unused in Hun.
  destruct (verify_command_cases py (run cfg py st1 evs) j n' code' s1' s2')
    as [(l & -> & ->)|[(-> & _ & ->)|[(_ & p & e & Hp & _)
       |(_ & p & links' & Hp & _)]]]; try done; congruence.
Qed.

Lemma verify_code_single_use_witness :
  verify_command ascii_text
    (run (Config 100 200) ascii_text
       (snd (verify_command ascii_text
               (BotState ∅
                  {[ 900 := LinkRow "Alice" None 0 (Some "ABC123") ]} ∅)
               5 "ann" "abc123" 10 11))
       [Vp 6 "bob" 15 None])
    6 "bob" " ABC123 " 20 21
  = (Replied InvalidCode,
     run (Config 100 200) ascii_text
       (snd (verify_command ascii_text
               (BotState ∅
                  {[ 900 := LinkRow "Alice" None 0 (Some "ABC123") ]} ∅)
               5 "ann" "abc123" 10 11))
       [Vp 6 "bob" 15 None]).
Proof.
  exact (verify_code_single_use (Config 100 200) ascii_text
           (BotState ∅ {[ 900 := LinkRow "Alice" None 0 (Some "ABC123") ]} ∅)
           _ 5 "ann" "abc123" "Alice" 10 11 [Vp 6 "bob" 15 None]
           6 "bob" " ABC123 " 20 21 eq_refl eq_refl).
Defined.

(** ** Errors at the command boundary and at start-up *)

Section Startup.
Variables (token : option string) (vp_id gems_id : option Z).
Variables (db_init : option exn) (bot_run : string -> option exn).

(** The guard of the [__main__] block is reached only once both channel
    identifiers have parsed and the store has opened. *)
Lemma main_exit :
  main token vp_id gems_id db_init bot_run = Exit 1 <->
  is_Some vp_id /\ is_Some gems_id /\ db_init = None /\
  (token = None \/ token = Some "").
Proof.
  unfold main. rewrite <- !not_eq_None_Some.
  destruct vp_id as [v|], gems_id as [g|], db_init as [e|],
    token as [[|a t]|]; try destruct (bot_run _);
    intuition congruence.
Qed.

Lemma main_uncaught e :
  main token vp_id gems_id db_init bot_run = Uncaught e <->
  ((vp_id = None \/ gems_id = None) /\ e = ValueError) \/
  (is_Some vp_id /\ is_Some gems_id /\ db_init = Some e) \/
  (is_Some vp_id /\ is_Some gems_id /\ db_init = None /\
   exists t, token = Some t /\ t <> "" /\ bot_run t = Some e).
Proof.
  unfold main. rewrite <- !not_eq_None_Some.
  destruct vp_id as [v|], gems_id as [g|], db_init as [e'|];
    try (intuition congruence).
  destruct token as [[|a t]|].
  - split; [done|].
    intros [[[?|?] _]|[(_ & _ & ?)|(_ & _ & _ & t & ? & ? & _)]];
      congruence.
  - destruct (bot_run (String a t)) as [e'|] eqn:Hrun.
    + split.
      * intros [= <-]. right. right. repeat split; try done.
        exists (String a t). by repeat split.
      * intros [[[?|?] _]|[(_ & _ & ?)|(_ & _ & _ & t' & ? & _ & ?)]];
          congruence.
    + split; [done|].
      intros [[[?|?] _]|[(_ & _ & ?)|(_ & _ & _ & t' & ? & _ & ?)]];
        congruence.
  - split; [done|].
    intros [[[?|?] _]|[(_ & _ & ?)|(_ & _ & _ & t & ? & _)]]; congruence.
Qed.

Lemma main_exit_status n :
  main token vp_id gems_id db_init bot_run = Exit n -> n = 1.
Proof. unfold main. repeat case_match; congruence. Qed.

(** The start ends with status 1 in every case but the one where the bot
    comes to serve. *)
Lemma main_status :
  exit_status (main token vp_id gems_id db_init bot_run) = Some 1 <->
  ~ exists t cfg, main token vp_id gems_id db_init bot_run = Serving t cfg.
Proof.
  destruct (main token vp_id gems_id db_init bot_run) as [n|e|t cfg] eqn:Hm.
  - apply main_exit_status in Hm as ->. simpl. split; [|done].
    intros _ (t & cfg & ?). done.
  - simpl. split; [|done]. intros _ (t & cfg & ?). done.
  - simpl. split; [done|]. intros H. destruct H. eauto.
Qed.
End Startup.

(** C5, as stated, fails: the handlers contain no [try], so an exception
    raised by the store leaves the handler without any reply being sent.
    Here identity 7, which has an unverified link row of its own, submits
    the pending code of another row: the [UPDATE] would give two rows the
    key 7, SQLite refuses it, and [verify_command] ends in
    [IntegrityError].  And a missing credential is not the only thing
    fatal at start-up: with the credential set, a [VP_CHANNEL_ID] that is
    not an integer ends the script in [ValueError]. *)
Lemma verify_primary_key_conflict_escapes :
  verify_command ascii_text
    (BotState ∅
       (<[900 := LinkRow "Alice" None 0 (Some "ABC123")]>
          {[ 7 := LinkRow "Bob" None 0 (Some "XYZ789") ]}) ∅)
    7 "bob" "abc123" 10 11
  = (Raised IntegrityError,
     BotState ∅
       (<[900 := LinkRow "Alice" None 0 (Some "ABC123")]>
          {[ 7 := LinkRow "Bob" None 0 (Some "XYZ789") ]}) ∅) /\
  (~ exists r,
      fst (verify_command ascii_text
             (BotState ∅
                (<[900 := LinkRow "Alice" None 0 (Some "ABC123")]>
                   {[ 7 := LinkRow "Bob" None 0 (Some "XYZ789") ]}) ∅)
             7 "bob" "abc123" 10 11) = Replied r) /\
  exit_status (main (Some "token") None (Some 0) None (fun _ => None))
    = Some 1.
Proof.
  split; [reflexivity|]. split; [|reflexivity].
  intros [r Hr]. vm_compute in Hr. discriminate.
Qed.

(** C5 (amended): the conditions a handler tests itself end in a
    user-visible reply and no mutation: a code that matches no unverified
    row ([InvalidCode]), [/unlink] by a non-administrator
    ([PermissionDenied]), and a missing link record in [/unlink],
    [/mylink] and [/whois] ([NotFound]).  An exception raised by the store
    is not caught by the handler: when the rebinding [UPDATE] of [/verify]
    is refused, the handler ends in that exception, which is an
    [IntegrityError], with no reply and the state as it was.  At start-up
    the script ends with status 1 in every case but the one where the bot
    comes to serve: through its own [exit(1)] when the credential is unset
    or empty (once both channel identifiers have parsed and the store has
    opened), and through an uncaught exception when a channel identifier
    in the environment is not an integer ([ValueError], whatever the
    credential), when the store fails to open, or when [bot.run] raises. *)
Theorem command_boundary (py : py_str) (st : bot_state) :
  (forall i n c s1 s2,
     verified_link (discord_links st) i = None ->
     find_pending (discord_links st) (upper py (strip py c)) = None ->
     verify_command py st i n c s1 s2 = (Replied InvalidCode, st)) /\
  (forall caller target,
     unlink_command st false caller target = (Replied AdminOnly, st)) /\
  (forall caller target,
     discord_links st !! (match target with Some u => u | None => caller end)
       = None ->
     unlink_command st true caller target = (Replied NotLinked, st)) /\
  (forall i,
     discord_links st !! i = None ->
     mylink_command st i = (Replied YouAreNotLinked, st)) /\
  (forall g fetch,
     (forall k r, discord_links st !! k = Some r -> growid r <> g) ->
     whois_command st g fetch = (Replied (GrowidNotLinked g), st)) /\
  (forall i n c s1 s2 p e,
     verified_link (discord_links st) i = None ->
     find_pending (discord_links st) (upper py (strip py c)) = Some p ->
     update_rebind (discord_links st) i s1 (upper py (strip py c)) = inl e ->
     verify_command py st i n c s1 s2 = (Raised e, st)) /\
  (forall i n c s1 s2 e,
     fst (verify_command py st i n c s1 s2) = Raised e ->
     e = IntegrityError /\ snd (verify_command py st i n c s1 s2) = st) /\
  (forall token vp_id gems_id db_init bot_run,
     (main token vp_id gems_id db_init bot_run = Exit 1 <->
        is_Some vp_id /\ is_Some gems_id /\ db_init = None /\
        (token = None \/ token = Some "")) /\
     (forall e,
        main token vp_id gems_id db_init bot_run = Uncaught e <->
        ((vp_id = None \/ gems_id = None) /\ e = ValueError) \/
        (is_Some vp_id /\ is_Some gems_id /\ db_init = Some e) \/
        (is_Some vp_id /\ is_Some gems_id /\ db_init = None /\
         exists t, token = Some t /\ t <> "" /\ bot_run t = Some e)) /\
     (exit_status (main token vp_id gems_id db_init bot_run) = Some 1 <->
        ~ exists t cfg,
            main token vp_id gems_id db_init bot_run = Serving t cfg)).
Proof.
  split; [|split; [|split; [|split; [|split; [|split; [|split]]]]]].
  - intros i n c s1 s2 Hex Hp. unfold verify_command. by rewrite Hex, Hp.
  - done.
  - intros caller target Hnone. unfold unlink_command. simpl.
    by rewrite Hnone.
  - intros i Hnone. unfold mylink_command. by rewrite Hnone.
  - intros g fetch Hnone. unfold whois_command.
    destruct (head _) as [result|] eqn:Hhead; [|done].
    apply head_Some_elem_of, list_elem_of_filter in Hhead as [Hg Hin].
    rewrite table_rows_perm in Hin. destruct result as [k r].
    apply elem_of_map_to_list in Hin. by destruct (Hnone _ _ Hin).
  - intros i n c s1 s2 p e Hex Hp Hup. unfold verify_command.
    by rewrite Hex, Hp, Hup.
  - intros i n c s1 s2 e H.
    destruct (verify_command_cases py st i n c s1 s2)
      as [(l & _ & H')|[(_ & _ & H')|[(_ & p & e' & _ & Hup & H')
         |(_ & p & links' & _ & _ & H')]]];
      rewrite H' in H |- *; simpl in H; simplify_eq.
    split; [|done]. by apply update_rebind_exn in Hup.
  - intros token vp_id gems_id db_init bot_run. split; [|split].
    + apply main_exit.
    + intros e. apply main_uncaught.
    + apply main_status.
Qed.

Lemma command_boundary_witness :
  verify_command ascii_text
    (BotState ∅ {[ 900 := LinkRow "Alice" None 0 (Some "ABC123") ]} ∅)
    5 "ann" "nocode" 10 11
  = (Replied InvalidCode,
     BotState ∅ {[ 900 := LinkRow "Alice" None 0 (Some "ABC123") ]} ∅) /\
  unlink_command
    (BotState ∅ {[ 900 := LinkRow "Alice" None 0 (Some "ABC123") ]} ∅)
    true 5 None
  = (Replied NotLinked,
     BotState ∅ {[ 900 := LinkRow "Alice" None 0 (Some "ABC123") ]} ∅) /\
  mylink_command
    (BotState ∅ {[ 900 := LinkRow "Alice" None 0 (Some "ABC123") ]} ∅) 5
  = (Replied YouAreNotLinked,
     BotState ∅ {[ 900 := LinkRow "Alice" None 0 (Some "ABC123") ]} ∅) /\
  main None (Some 0) (Some 0) None (fun _ => None) = Exit 1 /\
  main (Some "token") (Some 0) (Some 0) None (fun _ => Some LoginFailure)
  = Uncaught LoginFailure.
Proof.
  destruct (command_boundary ascii_text
              (BotState ∅
                 {[ 900 := LinkRow "Alice" None 0 (Some "ABC123") ]} ∅))
    as (Hinvalid & _ & Hunlink & Hmylink & _ & _ & _ & Hmain).
  split; [|split; [|split; [|split]]].
  - apply Hinvalid; reflexivity.
  - apply Hunlink. reflexivity.
  - apply Hmylink. reflexivity.
  - apply (Hmain None (Some 0) (Some 0) None (fun _ => None)).
    repeat split; eauto.
  - apply (Hmain (Some "token") (Some 0) (Some 0) None
             (fun _ => Some LoginFailure)).
    right. right. split; [eauto|]. split; [eauto|]. split; [done|].
    exists "token". split; [done|]. split; [discriminate|done].
Defined.

(** * Further properties of the store *)

(** Asking twice for the same identity is the same as asking once: the
    second call creates nothing and hands back the row of the first,
    whatever name and time it carries. *)
Theorem get_or_create_user_again (db : gmap Z balance_row)
    (i : Z) (n n' : string) (s s' : Z) :
  Database.get_or_create_user
    (snd (Database.get_or_create_user db i n s)) i n' s'
  = Database.get_or_create_user db i n s.
Proof.
  destruct (db !! i) as [row|] eqn:Hi.
  - rewrite (get_or_create_known _ _ _ _ _ Hi). simpl.
    by rewrite (get_or_create_known _ _ _ _ _ Hi).
  - rewrite (get_or_create_unknown _ _ _ _ Hi). simpl.
    by rewrite (get_or_create_known _ _ n' s' (BalanceRow n 0 0 s))
      by apply lookup_insert_eq.
Qed.

(** A credit followed by a debit of the same amount: on a record whose
    current VP is not negative the debit is always granted, the current VP
    is back where it was, and the lifetime-earned VP keeps the credit. *)
Theorem add_vp_then_spend_vp (db : gmap Z balance_row)
    (i amount stamp : Z) (row : balance_row) :
  db !! i = Some row ->
  0 <= vp row ->
  Database.spend_vp (snd (Database.add_vp db i amount stamp)) i amount =
    (true,
     <[i := BalanceRow (discord_name row) (vp row)
              (total_earned row + amount) stamp]> db).
Proof.
  intros Hi Hvp. rewrite (add_vp_known _ _ _ _ _ Hi). simpl.
  rewrite (spend_vp_granted _ _ _
             (BalanceRow (discord_name row) (vp row + amount)
                (total_earned row + amount) stamp));
    [|apply lookup_insert_eq|simpl; lia].
  simpl. rewrite insert_insert_eq. do 2 f_equal. f_equal. lia.
Qed.

Lemma add_vp_then_spend_vp_witness :
  Database.spend_vp
    (snd (Database.add_vp {[ 7 := BalanceRow "ann" 5 9 0 ]} 7 3 40)) 7 3
  = (true, <[7 := BalanceRow "ann" 5 12 40]>
             {[ 7 := BalanceRow "ann" 5 9 0 ]}).
Proof.
  apply (add_vp_then_spend_vp {[ 7 := BalanceRow "ann" 5 9 0 ]} 7 3 40
           (BalanceRow "ann" 5 9 0)).
  - reflexivity.
  - simpl. lia.
Defined.

Section StoreSequencesMore.
Implicit Types (db : gmap Z balance_row) (op : store_op).

Lemma apply_op_vp_nonneg db op :
  (forall i r, db !! i = Some r -> 0 <= vp r) ->
  credit_nonneg op ->
  forall i r, apply_op db op !! i = Some r -> 0 <= vp r.
Proof.
  intros Hinv Hop j r.
  destruct op as [i n s|i a s|i a]; cbn [apply_op credit_nonneg] in *.
  - destruct (db !! i) as [row|] eqn:Hi.
    + rewrite (get_or_create_known _ _ _ _ _ Hi). apply Hinv.
    + rewrite (get_or_create_unknown _ _ _ _ Hi). simpl.
      destruct (decide (i = j)) as [<-|Hne].
      * rewrite lookup_insert_eq. by intros [= <-].
      * rewrite lookup_insert_ne by done. apply Hinv.
  - destruct (db !! i) as [row|] eqn:Hi.
    + rewrite (add_vp_known _ _ _ _ _ Hi). simpl.
      destruct (decide (i = j)) as [<-|Hne].
      * rewrite lookup_insert_eq. intros [= <-]. simpl.
        specialize (Hinv _ _ Hi). lia.
      * rewrite lookup_insert_ne by done. apply Hinv.
    + rewrite (add_vp_unknown _ _ _ _ Hi). apply Hinv.
  - destruct (db !! i) as [row|] eqn:Hi.
    + destruct (Z_lt_le_dec (vp row) a) as [Hlt|Hle].
      * rewrite (spend_vp_refused _ _ _ _ Hi Hlt). apply Hinv.
      * rewrite (spend_vp_granted _ _ _ _ Hi Hle). simpl.
        destruct (decide (i = j)) as [<-|Hne].
        -- rewrite lookup_insert_eq. intros [= <-]. simpl. lia.
        -- rewrite lookup_insert_ne by done. apply Hinv.
    + rewrite (spend_vp_unknown _ _ _ Hi). apply Hinv.
Qed.

Lemma apply_op_exists db op j :
  is_Some (apply_op db op !! j) <->
  is_Some (db !! j) \/ exists n s, op = Create j n s.
Proof.
  destruct op as [i n s|i a s|i a]; cbn [apply_op].
  - destruct (db !! i) as [row|] eqn:Hi.
    + rewrite (get_or_create_known _ _ _ _ _ Hi). simpl. split; [by left|].
      intros [H|(n' & s' & [= -> -> ->])]; [done|by rewrite Hi].
    + rewrite (get_or_create_unknown _ _ _ _ Hi). simpl.
      destruct (decide (i = j)) as [<-|Hne].
      * rewrite lookup_insert_eq. split; [|done]. intros _. right. eauto.
      * rewrite lookup_insert_ne by done. split; [by left|].
        intros [H|(n' & s' & [= -> -> ->])]; done.
  - unfold Database.add_vp. simpl.
    destruct (decide (i = j)) as [<-|Hne].
    + rewrite lookup_alter_eq, fmap_is_Some.
      split; [by left|]. by intros [H|(n' & s' & [=])].
    + rewrite lookup_alter_ne by done.
      split; [by left|]. by intros [H|(n' & s' & [=])].
  - split.
    + intros H. left. revert H. unfold Database.spend_vp.
      destruct (db !! i) as [row|] eqn:Hi; [|done].
      destruct (vp row <? a); [done|]. simpl.
      destruct (decide (i = j)) as [<-|Hne].
      * rewrite lookup_alter_eq, fmap_is_Some. by rewrite Hi.
      * by rewrite lookup_alter_ne.
    + intros [H|(n' & s' & [=])]. unfold Database.spend_vp.
      destruct (db !! i) as [row|] eqn:Hi; [|done].
      destruct (vp row <? a); [done|]. simpl.
      destruct (decide (i = j)) as [<-|Hne].
      * rewrite lookup_alter_eq, fmap_is_Some. by rewrite Hi.
      * by rewrite lookup_alter_ne.
Qed.
End StoreSequencesMore.

(** The current VP never goes below zero: along any sequence of creates,
    debits of any amount and credits of non-negative amounts, run from a
    store without negative balances, no record has a negative current
    VP. *)
Theorem store_ops_vp_nonneg (db : gmap Z balance_row)
    (ops : list store_op) :
  (forall i r, db !! i = Some r -> 0 <= vp r) ->
  Forall credit_nonneg ops ->
  forall i r, run_ops db ops !! i = Some r -> 0 <= vp r.
Proof.
  revert db. induction ops as [|op ops IH]; intros db Hinv Hops; [done|].
  inversion Hops; subst. simpl. apply IH; [|done].
  by apply apply_op_vp_nonneg.
Qed.

Lemma store_ops_vp_nonneg_witness :
  run_ops ∅ [Create 1 "ann" 0; Credit 1 4 60; Debit 1 (-3); Debit 1 9] !! 1
    = Some (BalanceRow "ann" 7 4 60) /\
  0 <= vp (BalanceRow "ann" 7 4 60).
Proof.
  split; [reflexivity|].
  apply (store_ops_vp_nonneg ∅
           [Create 1 "ann" 0; Credit 1 4 60; Debit 1 (-3); Debit 1 9]
           ltac:(intros i r Hi; by rewrite lookup_empty in Hi)
           ltac:(repeat constructor; simpl; lia)
           1 (BalanceRow "ann" 7 4 60)).
  reflexivity.
Defined.

(** Records are never deleted, and only a create adds one: after a
    sequence of store operations an identity has a record exactly when it
    had one before or the sequence contains a create for it.  Credits and
    debits to an unknown identity leave it unknown. *)
Theorem store_ops_records (db : gmap Z balance_row)
    (ops : list store_op) (j : Z) :
  is_Some (run_ops db ops !! j) <->
  is_Some (db !! j) \/ exists n s, Create j n s ∈ ops.
Proof.
  revert db. induction ops as [|op ops IH]; intros db; simpl.
  - split; [by left|]. intros [H|(n & s & H)]; [done|].
    by apply elem_of_nil in H.
  - rewrite IH, apply_op_exists. split.
    + intros [[H|(n & s & ->)]|(n & s & H)]; [by left|right..].
      * exists n, s. apply elem_of_cons. by left.
      * exists n, s. apply elem_of_cons. by right.
    + intros [H|(n & s & H)]; [by left; left|].
      apply elem_of_cons in H as [<-|H]; [left; right; eauto|right; eauto].
Qed.

(** * Further properties of the accrual loop *)

(** What a tick does at one key is the loop body for that key's entry, and
    nothing at all where there is no entry. *)
Lemma check_voice_states_at (cfg : config) (st : bot_state)
    (now : Q) (stamps : Z -> Z) (i : Z) :
  match voice_tracking st !! i with
  | Some e =>
      vp_balance (check_voice_states cfg st now stamps) !! i =
        fst (award cfg now stamps (vp_balance st, voice_tracking st) (i, e))
          !! i /\
      voice_tracking (check_voice_states cfg st now stamps) !! i =
        snd (award cfg now stamps (vp_balance st, voice_tracking st) (i, e))
          !! i
  | None =>
      vp_balance (check_voice_states cfg st now stamps) !! i
        = vp_balance st !! i /\
      voice_tracking (check_voice_states cfg st now stamps) !! i = None
  end.
Proof.
  unfold check_voice_states. simpl.
  destruct (voice_tracking st !! i) as [e|] eqn:Hi.
  - apply award_fold_hit; [apply NoDup_fst_map_to_list|].
    by apply elem_of_map_to_list.
  - assert (i ∉ (map_to_list (voice_tracking st)).*1) as Hnot.
    { intros Hin. apply list_elem_of_fmap in Hin as ([k e] & -> & Hin).
      apply elem_of_map_to_list in Hin. simpl in Hi. congruence. }
    destruct (award_fold_other cfg now stamps _
                (vp_balance st, voice_tracking st) i Hnot) as [-> ->].
    by simpl.
Qed.

(** Whether an iteration awards anything is decided by the snapshot item
    alone. *)
Lemma award_cases (cfg : config) (now : Q) (stamps : Z -> Z)
    (item : Z * track_entry) :
  ((1 <= (now - joined_at (snd item)) / 60)%Q /\
   channel_id (snd item) = VP_CHANNEL_ID cfg /\
   forall acc,
     award cfg now stamps acc item =
       (snd (Database.add_vp (fst acc) (fst item)
               (Qfloor ((now - joined_at (snd item)) / 60
                        * inject_Z VP_PER_MINUTE))
               (stamps (fst item))),
        alter (fun e => TrackEntry (channel_id e) now) (fst item) (snd acc)))
  \/
  ((~ (1 <= (now - joined_at (snd item)) / 60)%Q \/
    channel_id (snd item) <> VP_CHANNEL_ID cfg) /\
   forall acc, award cfg now stamps acc item = acc).
Proof.
  unfold award.
  destruct (Qle_bool 1 _) eqn:Hmin.
  - apply Qle_bool_iff in Hmin.
    destruct (Z.eqb_spec (channel_id (snd item)) (VP_CHANNEL_ID cfg))
      as [Hch|Hch].
    + left. destruct (earned_floor _ Hmin) as [-> Hpos].
      split; [done|split; [done|]]. intros acc.
      by rewrite (proj2 (Z.ltb_lt 0 _)) by lia.
    + right. split; [by right|done].
  - right. split; [|done]. left. intros H.
    apply Qle_bool_iff in H. congruence.
Qed.

(** A tick leaves alone every tracked identity that has been in its
    channel for less than a minute, or that is in any channel other than
    the reward channel (the gems channel included), however long: no VP,
    and the baseline is not reset. *)
Theorem check_voice_states_skips (cfg : config) (st : bot_state)
    (now : Q) (stamps : Z -> Z) (i : Z) (e : track_entry) :
  voice_tracking st !! i = Some e ->
  ~ (1 <= (now - joined_at e) / 60)%Q \/ channel_id e <> VP_CHANNEL_ID cfg ->
  voice_tracking (check_voice_states cfg st now stamps) !! i = Some e /\
  vp_balance (check_voice_states cfg st now stamps) !! i
    = vp_balance st !! i.
Proof.
  intros Hi Hskip.
  pose proof (check_voice_states_at cfg st now stamps i) as Hat.
  rewrite Hi in Hat. destruct Hat as [-> ->].
  destruct (award_cases cfg now stamps (i, e))
    as [(Hmin & Hch & _)|(_ & ->)]; [|done].
  simpl in *. by destruct Hskip.
Qed.

Lemma check_voice_states_skips_witness :
  voice_tracking
    (check_voice_states (Config 100 200)
       (BotState {[ 1 := BalanceRow "ann" 0 0 0 ]} ∅
                 {[ 1 := TrackEntry 200 0 ]})
       600 (fun _ => 600)) !! 1 = Some (TrackEntry 200 0) /\
  vp_balance
    (check_voice_states (Config 100 200)
       (BotState {[ 1 := BalanceRow "ann" 0 0 0 ]} ∅
                 {[ 1 := TrackEntry 200 0 ]})
       600 (fun _ => 600)) !! 1 = Some (BalanceRow "ann" 0 0 0).
Proof.
  destruct (check_voice_states_skips (Config 100 200)
              (BotState {[ 1 := BalanceRow "ann" 0 0 0 ]} ∅
                        {[ 1 := TrackEntry 200 0 ]})
              600 (fun _ => 600) 1 (TrackEntry 200 0)) as [Htrk Hdb].
  - reflexivity.
  - right. simpl. lia.
  - split; [exact Htrk | exact Hdb].
Defined.

(** A tick writes to the store only by crediting tracked identities: it
    leaves the links table alone, creates and deletes no balance record and
    no tracker entry, and does not touch the balance of an identity that is
    not tracked. *)
Theorem check_voice_states_frame (cfg : config) (st : bot_state)
    (now : Q) (stamps : Z -> Z) :
  discord_links (check_voice_states cfg st now stamps) = discord_links st /\
  dom (vp_balance (check_voice_states cfg st now stamps))
    = dom (vp_balance st) /\
  dom (voice_tracking (check_voice_states cfg st now stamps))
    = dom (voice_tracking st) /\
  (forall i, voice_tracking st !! i = None ->
     vp_balance (check_voice_states cfg st now stamps) !! i
       = vp_balance st !! i).
Proof.
  split; [done|].
  assert (forall j,
    discord_name <$> vp_balance (check_voice_states cfg st now stamps) !! j
      = discord_name <$> vp_balance st !! j /\
    channel_id <$> voice_tracking (check_voice_states cfg st now stamps) !! j
      = channel_id <$> voice_tracking st !! j) as Hkeeps.
  { intros j. unfold check_voice_states. simpl. apply award_fold_keeps. }
  split; [|split].
  - apply set_eq. intros j. rewrite !elem_of_dom.
    destruct (Hkeeps j) as [H _].
    by rewrite <- !(fmap_is_Some discord_name), H.
  - apply set_eq. intros j. rewrite !elem_of_dom.
    destruct (Hkeeps j) as [_ H].
    by rewrite <- !(fmap_is_Some channel_id), H.
  - intros i Hi.
    pose proof (check_voice_states_at cfg st now stamps i) as Hat.
    rewrite Hi in Hat. by destruct Hat.
Qed.

Lemma check_voice_states_frame_witness :
  vp_balance
    (check_voice_states (Config 100 200)
       (BotState {[ 2 := BalanceRow "bob" 1 1 0 ]} ∅
                 {[ 1 := TrackEntry 100 0 ]})
       600 (fun _ => 600)) !! 2 = Some (BalanceRow "bob" 1 1 0).
Proof.
  destruct (check_voice_states_frame (Config 100 200)
              (BotState {[ 2 := BalanceRow "bob" 1 1 0 ]} ∅
                        {[ 1 := TrackEntry 100 0 ]})
              600 (fun _ => 600)) as (_ & _ & _ & Hframe).
  apply (Hframe 2). reflexivity.
Defined.

Lemma bot_state_ext (st1 st2 : bot_state) :
  vp_balance st1 = vp_balance st2 ->
  discord_links st1 = discord_links st2 ->
  voice_tracking st1 = voice_tracking st2 ->
  st1 = st2.
Proof. destruct st1, st2. simpl. congruence. Qed.

Lemma no_minute_elapsed (now : Q) : ~ (1 <= (now - now) / 60)%Q.
Proof.
  assert ((now - now) / 60 == 0)%Q as -> by (unfold Qdiv; ring).
  unfold Qle. simpl. lia.
Qed.

(** A tick fired again at the same instant changes nothing: whoever was
    credited had their baseline reset to that instant, and whoever was
    skipped is skipped again. *)
Theorem check_voice_states_again (cfg : config) (st : bot_state)
    (now : Q) (stamps stamps' : Z -> Z) :
  check_voice_states cfg (check_voice_states cfg st now stamps) now stamps'
  = check_voice_states cfg st now stamps.
Proof.
  set (st' := check_voice_states cfg st now stamps).
  assert (forall i,
    vp_balance (check_voice_states cfg st' now stamps') !! i
      = vp_balance st' !! i /\
    voice_tracking (check_voice_states cfg st' now stamps') !! i
      = voice_tracking st' !! i) as Hsame.
  { intros i.
    pose proof (check_voice_states_at cfg st' now stamps' i) as Hat'.
    destruct (voice_tracking st' !! i) as [e'|] eqn:Hi'; [|done].
    destruct Hat' as [-> ->].
    destruct (award_cases cfg now stamps' (i, e'))
      as [(Hmin' & Hch' & _)|(_ & ->)]; [|by simpl].
    exfalso. simpl in Hmin', Hch'.
    pose proof (check_voice_states_at cfg st now stamps i) as Hat.
    fold st' in Hat. rewrite Hi' in Hat.
    destruct (voice_tracking st !! i) as [e|] eqn:Hi; [|by destruct Hat].
    destruct Hat as [_ Hat].
    destruct (award_cases cfg now stamps (i, e))
      as [(_ & _ & Haw)|(Hskip & Haw)]; rewrite Haw in Hat; simpl in Hat.
    - rewrite lookup_alter_eq, Hi in Hat. simpl in Hat.
      injection Hat as ->. simpl in Hmin'.
      by apply (no_minute_elapsed now).
    - rewrite Hi in Hat. injection Hat as ->. simpl in Hskip.
      by destruct Hskip. }
  apply bot_state_ext; [|done|]; apply map_eq; intros i;
    by destruct (Hsame i).
Qed.

(** From joining the reward channel to the first tick a minute or more
    later: the join has made sure the identity has a balance record, so
    the tick's credit is never lost.  The identity's balance grows by
    [floor((now - joined) / 60 * VP_PER_MINUTE)] and its baseline is the
    tick's time. *)
Theorem join_then_check_voice_states (cfg : config) (st : bot_state)
    (i : Z) (n : string) (joined : Q) (stamp : Z)
    (now : Q) (stamps : Z -> Z) :
  (1 <= (now - joined) / 60)%Q ->
  Database.get_vp
    (vp_balance
       (check_voice_states cfg
          (on_voice_state_update st i n None (Some (VP_CHANNEL_ID cfg))
             joined stamp)
          now stamps)) i
  = Database.get_vp (vp_balance st) i
    + Qfloor ((now - joined) / 60 * inject_Z VP_PER_MINUTE) /\
  voice_tracking
    (check_voice_states cfg
       (on_voice_state_update st i n None (Some (VP_CHANNEL_ID cfg))
          joined stamp)
       now stamps) !! i
  = Some (TrackEntry (VP_CHANNEL_ID cfg) now).
Proof.
  intros Hmin.
  set (st1 := on_voice_state_update st i n None (Some (VP_CHANNEL_ID cfg))
                joined stamp).
  pose proof (check_voice_states_at cfg st1 now stamps i) as Hat.
  assert (voice_tracking st1 !! i
          = Some (TrackEntry (VP_CHANNEL_ID cfg) joined)) as Hi
    by apply lookup_insert_eq.
  rewrite Hi in Hat. destruct Hat as [Hdb Htrk].
  destruct (award_cases cfg now stamps
              (i, TrackEntry (VP_CHANNEL_ID cfg) joined))
    as [(_ & _ & Haw)|([Hskip|Hskip] & _)]; [|by destruct Hskip..].
  rewrite Haw in Hdb, Htrk. cbn [fst snd joined_at] in Hdb, Htrk.
  split.
  - unfold Database.get_vp at 1. rewrite Hdb. unfold Database.get_vp.
    subst st1. cbn [on_voice_state_update vp_balance].
    destruct (vp_balance st !! i) as [row|] eqn:Hrow.
    + rewrite (get_or_create_known _ _ _ _ _ Hrow). cbn [snd].
      rewrite (add_vp_known _ _ _ _ _ Hrow). cbn [snd].
      by rewrite lookup_insert_eq.
    + rewrite (get_or_create_unknown _ _ _ _ Hrow). cbn [snd].
      rewrite (add_vp_known _ _ _ _ (BalanceRow n 0 0 stamp))
        by apply lookup_insert_eq.
      cbn [snd]. by rewrite lookup_insert_eq.
  - rewrite Htrk, lookup_alter_eq, Hi. done.
Qed.

Lemma join_then_check_voice_states_witness :
  Database.get_vp
    (vp_balance
       (check_voice_states (Config 100 200)
          (on_voice_state_update (BotState ∅ ∅ ∅) 1 "ann" None (Some 100)
             0 0)
          61 (fun _ => 61))) 1 = 2.
Proof.
  destruct (join_then_check_voice_states (Config 100 200) (BotState ∅ ∅ ∅)
              1 "ann" 0 0 61 (fun _ => 61)) as [Hvp _].
  - unfold Qle. simpl. lia.
  - exact Hvp.
Defined.

(** * Balances along runs of the bot *)

Lemma carried_refl r : carried r r.
Proof. unfold carried. repeat split; lia. Qed.

Lemma carried_trans r1 r2 r3 : carried r1 r2 -> carried r2 r3 -> carried r1 r3.
Proof. unfold carried. intros (? & ? & ?) (? & ? & ?). repeat split; [congruence|lia..]. Qed.

Lemma get_or_create_origin (db : gmap Z balance_row) i n s j r' :
  snd (Database.get_or_create_user db i n s) !! j = Some r' ->
  db !! j = Some r' \/
  (db !! j = None /\ vp r' = 0 /\ total_earned r' = 0).
Proof.
  destruct (db !! i) as [row|] eqn:Hi.
  - rewrite (get_or_create_known _ _ _ _ _ Hi). by left.
  - rewrite (get_or_create_unknown _ _ _ _ Hi). simpl.
    destruct (decide (i = j)) as [<-|Hne].
    + rewrite lookup_insert_eq. intros [= <-]. by right.
    + rewrite lookup_insert_ne by done. by left.
Qed.

Lemma check_voice_states_origin cfg st now stamps j r' :
  vp_balance (check_voice_states cfg st now stamps) !! j = Some r' ->
  exists r, vp_balance st !! j = Some r /\ carried r r'.
Proof.
  pose proof (check_voice_states_at cfg st now stamps j) as Hat.
  destruct (voice_tracking st !! j) as [e|].
  - destruct Hat as [-> _].
    destruct (award_cases cfg now stamps (j, e))
      as [(Hmin & _ & ->)|(_ & ->)]; simpl.
    + unfold Database.add_vp. simpl. rewrite lookup_alter_eq.
      destruct (vp_balance st !! j) as [r|]; [|done].
      intros [= <-]. exists r. split; [done|].
      destruct (earned_floor _ Hmin) as [_ Hpos]. simpl in Hpos.
      unfold carried. simpl. split; [done|]. split; lia.
    + intros H. exists r'. split; [done|apply carried_refl].
  - destruct Hat as [-> _]. intros H. exists r'.
    split; [done|apply carried_refl].
Qed.

Section BalancesAlongRuns.
Variable cfg : config.
Variable py : py_str.

(** Where a balance row comes from after one event: from the row the
    identity had, only ever credited, or from a fresh row at zero. *)
Lemma step_origin st ev j r' :
  vp_balance (step cfg py st ev) !! j = Some r' ->
  (exists r, vp_balance st !! j = Some r /\ carried r r') \/
  (vp_balance st !! j = None /\ vp r' = 0 /\ total_earned r' = 0).
Proof.
  assert (forall db i n s,
    snd (Database.get_or_create_user db i n s) !! j = Some r' ->
    (exists r, db !! j = Some r /\ carried r r') \/
    (db !! j = None /\ vp r' = 0 /\ total_earned r' = 0)) as Hcreate.
  { intros db i n s H. apply get_or_create_origin in H as [H|H]; [|by right].
    left. exists r'. split; [done|apply carried_refl]. }
  assert (vp_balance st !! j = Some r' ->
    (exists r, vp_balance st !! j = Some r /\ carried r r') \/
    (vp_balance st !! j = None /\ vp r' = 0 /\ total_earned r' = 0)) as Hsame.
  { intros H. left. exists r'. split; [done|apply carried_refl]. }
  destruct ev as [i n b a now s|t stamps|i n code s1 s2|adm i t|i n s v|
                  |g fetch|i|];
    cbn [step].
  - unfold on_voice_state_update.
    destruct b, a; cbn [vp_balance]; try done.
    + by case_match.
    + apply Hcreate.
  - intros H. left. by eapply check_voice_states_origin.
  - destruct (verify_command_cases py st i n code s1 s2)
      as [(l & _ & ->)|[(_ & _ & ->)|[(_ & p & e & _ & _ & ->)
         |(_ & p & links' & _ & Hup & ->)]]]; cbn [snd vp_balance];
      try done.
    apply Hcreate.
  - unfold unlink_command. destruct adm; cbn [negb snd]; [|done].
    by case_match.
  - unfold vp_command. case_match; cbn [snd vp_balance]; apply Hcreate.
  - done.
  - by rewrite whois_command_state.
  - by rewrite mylink_command_state.
  - done.
Qed.

Lemma step_carried st ev j r :
  vp_balance st !! j = Some r ->
  exists r', vp_balance (step cfg py st ev) !! j = Some r' /\ carried r r'.
Proof.
  intros Hj. pose proof (step_keeps_name cfg py st ev j r Hj) as Hname.
  destruct (vp_balance (step cfg py st ev) !! j) as [r'|] eqn:Hj'; [|done].
  exists r'. split; [done|].
  apply step_origin in Hj' as [(r0 & Hr0 & Hc)|(Hnone & _)]; congruence.
Qed.
End BalancesAlongRuns.

(** No event of the bot ever spends VP or removes a balance record.
    Through any sequence of voice updates, ticks and commands a record
    that exists stays, under the same display name, its current VP never
    drops, and its current and lifetime-earned VP grow by the same
    amount. *)
Theorem run_balances_carried (cfg : config) (py : py_str)
    (st : bot_state)
    (evs : list event) (j : Z) (r : balance_row) :
  vp_balance st !! j = Some r ->
  exists r', vp_balance (run cfg py st evs) !! j = Some r' /\ carried r r'.
Proof.
  revert st r. induction evs as [|ev evs IH]; intros st r Hj.
  - exists r. split; [done|apply carried_refl].
  - destruct (step_carried cfg py st ev j r Hj) as (r1 & Hr1 & Hc1).
    destruct (IH _ _ Hr1) as (r2 & Hr2 & Hc2).
    exists r2. split; [done|]. by eapply carried_trans.
Qed.

Lemma run_balances_carried_witness :
  exists r',
    vp_balance
      (run (Config 100 200) ascii_text
         (BotState {[ 1 := BalanceRow "ann" 3 8 0 ]} ∅ ∅)
         [VoiceStateUpdate 1 "anna" None (Some 100) 0 0;
          CheckVoiceStates 90 (fun _ => 90);
          Vp 1 "anna" 95 (Some 100)]) !! 1 = Some r' /\
    carried (BalanceRow "ann" 3 8 0) r'.
Proof.
  apply (run_balances_carried (Config 100 200) ascii_text
           (BotState {[ 1 := BalanceRow "ann" 3 8 0 ]} ∅ ∅)).
  reflexivity.
Defined.

(** Through any sequence of events of the bot, run from a state in which
    every record has current VP <= lifetime-earned VP, every record still
    has: the bot's own credits are positive and it never debits. *)
Theorem run_balance_inv (cfg : config) (py : py_str) (st : bot_state)
    (evs : list event) :
  balance_inv (vp_balance st) ->
  balance_inv (vp_balance (run cfg py st evs)).
Proof.
  revert st. induction evs as [|ev evs IH]; intros st Hinv; [done|].
  simpl. apply IH. intros j r' Hj'.
  apply step_origin in Hj' as [(r & Hr & _ & _ & Hdiff)|(_ & Hvp & Htot)].
  - specialize (Hinv _ _ Hr). lia.
  - lia.
Qed.

Lemma run_balance_inv_witness :
  balance_inv
    (vp_balance
       (run (Config 100 200) ascii_text (BotState ∅ ∅ ∅)
          [VoiceStateUpdate 1 "ann" None (Some 100) 0 0;
           CheckVoiceStates 90 (fun _ => 90)])).
Proof.
  apply (run_balance_inv (Config 100 200) ascii_text (BotState ∅ ∅ ∅)).
  intros i r Hi. simpl in Hi. by rewrite lookup_empty in Hi.
Defined.

(** * Further properties of the verification handshake *)

Section HandshakeMore.
Implicit Types (links : gmap Z link_row) (st : bot_state).

(** A granted [UPDATE] had exactly one row to move: the one the lookup
    found. *)
Lemma update_rebind_success links i s code links' p :
  find_pending links code = Some p ->
  update_rebind links i s code = inr links' ->
  links' = <[i := rebound s (snd p)]>
             (filter (fun kr : Z * link_row =>
                        pending_code (snd kr) <> Some code) links) /\
  (forall k r, links !! k = Some r -> pending_code r = Some code ->
               (k, r) = p) /\
  filter (fun kr : Z * link_row => pending_code (snd kr) <> Some code) links
    !! i = None.
Proof.
  unfold update_rebind. intros Hp Hup.
  apply find_pending_Some in Hp as (Hpk & Hcode & _).
  assert (forall k r, links !! k = Some r -> pending_code r = Some code ->
            (k, r) ∈ map_to_list
                       (filter (fun kr : Z * link_row =>
                                  pending_code (snd kr) = Some code) links))
    as Hhit.
  { intros k r Hk Hc. apply elem_of_map_to_list.
    by apply map_lookup_filter_Some. }
  destruct (map_to_list (filter _ links)) as [|kr [|kr' hits]] eqn:Hhits;
    [|destruct (filter _ links !! i) eqn:Hi|]; try discriminate.
  - specialize (Hhit _ _ Hpk Hcode). by apply elem_of_nil in Hhit.
  - injection Hup as <-.
    assert (kr = p) as ->.
    { specialize (Hhit _ _ Hpk Hcode).
      apply list_elem_of_singleton in Hhit. by destruct p. }
    split; [done|]. split; [|done]. intros k r Hk Hc.
    specialize (Hhit _ _ Hk Hc). by apply list_elem_of_singleton in Hhit.
Qed.

Lemma find_pending_exists links code k r :
  links !! k = Some r -> pending_code r = Some code -> verified r = 0 ->
  is_Some (find_pending links code).
Proof.
  intros Hk Hc Hv. unfold find_pending. apply head_is_Some.
  intros Hnil.
  eapply (filter_nil_not_elem_of _ _ (k, r)); [exact Hnil|done|].
  rewrite table_rows_perm. by apply elem_of_map_to_list.
Qed.

(** What a successful [/verify] amounts to. *)
Lemma verify_success py st i n code s1 s2 g st1 :
  verify_command py st i n code s1 s2
    = (Replied (VerificationSuccessful g), st1) ->
  exists p,
    find_pending (discord_links st) (upper py (strip py code)) = Some p /\
    growid (snd p) = g /\
    (forall k r, discord_links st !! k = Some r ->
       pending_code r = Some (upper py (strip py code)) -> (k, r) = p) /\
    st1 = BotState
            (snd (Database.get_or_create_user (vp_balance st) i n s2))
            (<[i := LinkRow g (Some s1) 1 None]>
               (filter (fun kr : Z * link_row =>
                          pending_code (snd kr) <> Some (upper py (strip py code)))
                       (discord_links st)))
            (voice_tracking st).
Proof.
  intros Hok.
  destruct (verify_command_cases py st i n code s1 s2)
    as [(l & _ & H)|[(_ & _ & H)|[(_ & p & e & _ & _ & H)
       |(_ & p & links' & Hp & Hup & H)]]];
    rewrite H in Hok; simplify_eq.
  destruct (update_rebind_success _ _ _ _ _ _ Hp Hup) as (-> & Honly & _).
  exists p. by repeat split.
Qed.
End HandshakeMore.

(** After a successful [/verify]: the submitter's link row carries the
    growid of the reply, is verified, has no pending code and is stamped
    with the time of the update; exactly one row carried the code before,
    it was unverified, and unless it already sat under the submitter's key
    its old key is free again; every other row of the links table is as it
    was; the tracker is untouched. *)
Theorem verify_success_links (py : py_str) (st st1 : bot_state) (i : Z)
    (n code g : string) (s1 s2 : Z) :
  verify_command py st i n code s1 s2
    = (Replied (VerificationSuccessful g), st1) ->
  discord_links st1 !! i = Some (LinkRow g (Some s1) 1 None) /\
  (exists k0 r0,
     discord_links st !! k0 = Some r0 /\
     pending_code r0 = Some (upper py (strip py code)) /\
     verified r0 = 0 /\ growid r0 = g /\
     (k0 <> i -> discord_links st1 !! k0 = None) /\
     (forall k r, discord_links st !! k = Some r ->
        pending_code r = Some (upper py (strip py code)) -> k = k0)) /\
  (forall k r, k <> i ->
     pending_code r <> Some (upper py (strip py code)) ->
     (discord_links st1 !! k = Some r <-> discord_links st !! k = Some r)) /\
  voice_tracking st1 = voice_tracking st.
Proof.
  intros Hok.
  destruct (verify_success _ _ _ _ _ _ _ _ _ Hok)
    as ([k0 r0] & Hp & Hg & Honly & ->).
  apply find_pending_Some in Hp as (Hk0 & Hc0 & Hv0). simpl in *.
  split; [by rewrite lookup_insert_eq|]. split; [|split; [|done]].
  - exists k0, r0. repeat split; try done.
    + intros Hne. rewrite lookup_insert_ne by done.
      apply map_lookup_filter_None. right. intros r Hr Hcode.
      simpl in Hcode. congruence.
    + intros k r Hk Hc. by injection (Honly _ _ Hk Hc).
  - intros k r Hne Hc. rewrite lookup_insert_ne by done.
    rewrite map_lookup_filter_Some. simpl. split; [by intros [? _]|done].
Qed.

Lemma verify_success_links_witness :
  discord_links
    (snd (verify_command ascii_text
            (BotState ∅
               (<[900 := LinkRow "Alice" None 0 (Some "ABC123")]>
                  {[ 7 := LinkRow "Bob" (Some 3) 1 None ]}) ∅)
            5 "ann" "abc123" 10 11)) !! 5
  = Some (LinkRow "Alice" (Some 10) 1 None).
Proof.
  destruct (verify_success_links ascii_text
              (BotState ∅
                 (<[900 := LinkRow "Alice" None 0 (Some "ABC123")]>
                    {[ 7 := LinkRow "Bob" (Some 3) 1 None ]}) ∅)
              (snd (verify_command ascii_text
                      (BotState ∅
                         (<[900 := LinkRow "Alice" None 0 (Some "ABC123")]>
                            {[ 7 := LinkRow "Bob" (Some 3) 1 None ]}) ∅)
                      5 "ann" "abc123" 10 11))
              5 "ann" "abc123" "Alice" 10 11) as [Hlink _].
  - reflexivity.
  - exact Hlink.
Defined.

(** After a successful [/verify] the submitter has a balance record (a
    fresh one at zero under the submitter's name when there was none, the
    old one untouched otherwise), [/mylink] answers with the verified link
    (growid, balance, time of the update) and never with an exception, and
    the submitter counts as already verified. *)
Theorem verify_then_mylink (py : py_str) (st st1 : bot_state) (i : Z)
    (n code g : string) (s1 s2 : Z) :
  verify_command py st i n code s1 s2
    = (Replied (VerificationSuccessful g), st1) ->
  mylink_command st1 i =
    (Replied (OwnLink g (Database.get_vp (vp_balance st) i) s1), st1) /\
  vp_balance st1 !! i =
    Some (match vp_balance st !! i with
          | Some row => row
          | None => BalanceRow n 0 0 s2
          end) /\
  (forall j, j <> i -> vp_balance st1 !! j = vp_balance st !! j) /\
  verified_link (discord_links st1) i = Some (LinkRow g (Some s1) 1 None).
Proof.
  intros Hok.
  destruct (verify_success _ _ _ _ _ _ _ _ _ Hok) as (p & _ & _ & _ & ->).
  assert (forall j,
    snd (Database.get_or_create_user (vp_balance st) i n s2) !! j =
      if decide (j = i)
      then Some (match vp_balance st !! i with
                 | Some row => row
                 | None => BalanceRow n 0 0 s2
                 end)
      else vp_balance st !! j) as Hdb.
  { intros j. destruct (vp_balance st !! i) as [row|] eqn:Hrow.
    - rewrite (get_or_create_known _ _ _ _ _ Hrow). simpl.
      case_decide; by subst.
    - rewrite (get_or_create_unknown _ _ _ _ Hrow). simpl.
      case_decide; [subst; apply lookup_insert_eq|].
      by apply lookup_insert_ne. }
  split; [|split; [|split]].
  - unfold mylink_command, Database.get_vp. cbn [discord_links vp_balance].
    rewrite lookup_insert_eq, Hdb. simpl. rewrite decide_True by done.
    by destruct (vp_balance st !! i).
  - cbn [vp_balance]. rewrite Hdb. by rewrite decide_True.
  - intros j Hne. cbn [vp_balance]. rewrite Hdb. by rewrite decide_False.
  - unfold verified_link. cbn [discord_links].
    by rewrite lookup_insert_eq.
Qed.

Lemma verify_then_mylink_witness :
  mylink_command
    (snd (verify_command ascii_text
            (BotState ∅ {[ 900 := LinkRow "Alice" None 0 (Some "ABC123") ]} ∅)
            5 "ann" "abc123" 10 11)) 5
  = (Replied (OwnLink "Alice" 0 10),
     snd (verify_command ascii_text
            (BotState ∅ {[ 900 := LinkRow "Alice" None 0 (Some "ABC123") ]} ∅)
            5 "ann" "abc123" 10 11)).
Proof.
  destruct (verify_then_mylink ascii_text
              (BotState ∅
                 {[ 900 := LinkRow "Alice" None 0 (Some "ABC123") ]} ∅)
              (snd (verify_command ascii_text
                      (BotState ∅
                         {[ 900 := LinkRow "Alice" None 0 (Some "ABC123") ]}
                         ∅)
                      5 "ann" "abc123" 10 11))
              5 "ann" "abc123" "Alice" 10 11) as [Hmylink _].
  - reflexivity.
  - exact Hmylink.
Defined.

(** A submitter who is not verified but has a link row of their own under
    another code cannot redeem a pending code: the [UPDATE] would give a
    second row the submitter's key, so [/verify] ends in [IntegrityError]
    with no reply and nothing changed. *)
Theorem verify_own_row_conflict (py : py_str) (st : bot_state) (i : Z)
    (n code : string) (s1 s2 : Z) (own : link_row) (p : Z * link_row) :
  discord_links st !! i = Some own ->
  verified own <> 1 ->
  pending_code own <> Some (upper py (strip py code)) ->
  find_pending (discord_links st) (upper py (strip py code)) = Some p ->
  verify_command py st i n code s1 s2 = (Raised IntegrityError, st).
Proof.
  intros Hown Hnot Hother Hp. unfold verify_command, verified_link.
  rewrite Hown, (proj2 (Z.eqb_neq _ _) Hnot), Hp.
  destruct (update_rebind _ _ _ _) as [e|links'] eqn:Hup.
  - by rewrite (update_rebind_exn _ _ _ _ _ Hup).
  - destruct (update_rebind_success _ _ _ _ _ _ Hp Hup) as (_ & _ & Hfree).
    by rewrite (proj2 (map_lookup_filter_Some _ (discord_links st) i own))
      in Hfree.
Qed.

Lemma verify_own_row_conflict_witness :
  verify_command ascii_text
    (BotState ∅
       (<[900 := LinkRow "Alice" None 0 (Some "ABC123")]>
          {[ 7 := LinkRow "Bob" None 0 (Some "XYZ789") ]}) ∅)
    7 "bob" " abc123" 10 11
  = (Raised IntegrityError,
     BotState ∅
       (<[900 := LinkRow "Alice" None 0 (Some "ABC123")]>
          {[ 7 := LinkRow "Bob" None 0 (Some "XYZ789") ]}) ∅).
Proof.
  apply (verify_own_row_conflict ascii_text _ 7 "bob" " abc123" 10 11
           (LinkRow "Bob" None 0 (Some "XYZ789"))
           (900, LinkRow "Alice" None 0 (Some "ABC123")));
    [reflexivity|simpl; lia|discriminate|reflexivity].
Defined.

(** Two rows carrying the same pending code, one of them unverified, make
    that code unredeemable: for any submitter who is not yet verified
    [/verify] ends in [IntegrityError], with no reply and nothing
    changed. *)
Theorem verify_duplicate_code_conflict (py : py_str) (st : bot_state)
    (i : Z)
    (n code : string) (s1 s2 : Z) (k1 k2 : Z) (r1 r2 : link_row) :
  verified_link (discord_links st) i = None ->
  k1 <> k2 ->
  discord_links st !! k1 = Some r1 ->
  discord_links st !! k2 = Some r2 ->
  pending_code r1 = Some (upper py (strip py code)) ->
  pending_code r2 = Some (upper py (strip py code)) ->
  verified r1 = 0 ->
  verify_command py st i n code s1 s2 = (Raised IntegrityError, st).
Proof.
  intros Hnot Hne Hk1 Hk2 Hc1 Hc2 Hv1. unfold verify_command. rewrite Hnot.
  destruct (find_pending_exists _ _ _ _ Hk1 Hc1 Hv1) as [p Hp]. rewrite Hp.
  destruct (update_rebind _ _ _ _) as [e|links'] eqn:Hup.
  - by rewrite (update_rebind_exn _ _ _ _ _ Hup).
  - destruct (update_rebind_success _ _ _ _ _ _ Hp Hup) as (_ & Honly & _).
    pose proof (Honly _ _ Hk1 Hc1). pose proof (Honly _ _ Hk2 Hc2).
    congruence.
Qed.

Lemma verify_duplicate_code_conflict_witness :
  verify_command ascii_text
    (BotState ∅
       (<[900 := LinkRow "Alice" None 0 (Some "ABC123")]>
          {[ 901 := LinkRow "Carol" None 0 (Some "ABC123") ]}) ∅)
    5 "ann" "abc123" 10 11
  = (Raised IntegrityError,
     BotState ∅
       (<[900 := LinkRow "Alice" None 0 (Some "ABC123")]>
          {[ 901 := LinkRow "Carol" None 0 (Some "ABC123") ]}) ∅).
Proof.
  apply (verify_duplicate_code_conflict ascii_text _ 5 "ann" "abc123" 10 11 900 901
           (LinkRow "Alice" None 0 (Some "ABC123"))
           (LinkRow "Carol" None 0 (Some "ABC123")));
    [reflexivity|lia|reflexivity..].
Defined.

(** * Further properties of the leaderboard *)

Lemma leaderboard_rows_length (db : gmap Z balance_row) :
  length (map board_entry
            (stable_sort
               (fun a b => total_earned (snd b) <=? total_earned (snd a))
               (table_rows db))) = size db.
Proof.
  rewrite length_map, (Permutation_length (stable_sort_perm _ _)),
    (Permutation_length (table_rows_perm _)).
  apply length_map_to_list.
Qed.

(** The leaderboard has exactly [min(limit, number of records)] entries
    for a non-negative limit, and one entry per record for a negative
    one. *)
Theorem get_leaderboard_length (db : gmap Z balance_row) (limit : Z) :
  length (Database.get_leaderboard db limit) =
    if limit <? 0 then size db else Nat.min (Z.to_nat limit) (size db).
Proof.
  unfold Database.get_leaderboard, sql_limit.
  destruct (limit <? 0).
  - apply leaderboard_rows_length.
  - by rewrite length_take, leaderboard_rows_length.
Qed.

(** The first entry of the leaderboard is a maximum: no record of the
    store has more lifetime-earned VP.  There is a first entry whenever
    the store is not empty and the limit is not zero. *)
Theorem get_leaderboard_head (db : gmap Z balance_row) (limit : Z) :
  (forall top, head (Database.get_leaderboard db limit) = Some top ->
     forall i r, db !! i = Some r -> total_earned r <= snd top) /\
  (db <> ∅ -> limit <> 0 ->
   is_Some (head (Database.get_leaderboard db limit))).
Proof.
  split.
  - intros top Htop i r Hi.
    destruct (get_leaderboard_any_limit db limit)
      as (_ & Hsorted & omitted & Hperm & Hlast).
    assert (board_entry (i, r) ∈ Database.get_leaderboard db limit ++ omitted)
      as Hin.
    { rewrite <- Hperm. apply list_elem_of_fmap_2.
      by apply elem_of_map_to_list. }
    apply head_Some in Htop as [rest Hboard]. rewrite Hboard in *.
    apply elem_of_app in Hin as [Hin|Hin].
    + apply elem_of_cons in Hin as [<-|Hin]; [done|].
      apply StronglySorted_cons in Hsorted as [Hall _].
      rewrite Forall_forall in Hall. by apply (Hall _ Hin).
    + destruct (last (top :: rest)) as [y|] eqn:Hy.
      * specialize (Hlast _ _ Hin eq_refl). simpl in Hlast.
        apply last_Some in Hy as [l' Hy].
        destruct l' as [|z l']; simplify_eq/=; [done|].
        apply StronglySorted_cons in Hsorted as [Hall _].
        rewrite Forall_forall in Hall.
        assert (y ∈ l' ++ [y]) as Hyin by set_solver.
        specialize (Hall _ Hyin). simpl in Hall. lia.
      * by apply last_None in Hy.
  - intros Hne Hlimit. apply head_is_Some. intros Hnil.
    apply (f_equal length) in Hnil. revert Hnil.
    unfold Database.get_leaderboard, sql_limit.
    assert (size db <> 0%nat) by by rewrite map_size_empty_iff.
    destruct (Z.ltb_spec limit 0);
      rewrite ?length_take, leaderboard_rows_length; simpl; lia.
Qed.

Lemma get_leaderboard_head_witness :
  is_Some
    (head (Database.get_leaderboard
             (<[1 := BalanceRow "ann" 0 5 0]>
                {[ 2 := BalanceRow "bob" 3 9 0 ]}) 10)).
Proof.
  destruct (get_leaderboard_head
              (<[1 := BalanceRow "ann" 0 5 0]>
                 {[ 2 := BalanceRow "bob" 3 9 0 ]}) 10) as [_ Hsome].
  apply Hsome; [|lia].
  intros Hempty. apply (f_equal (fun m => m !! 1)) in Hempty.
  vm_compute in Hempty. discriminate.
Defined.

(** * Further properties of the commands and the presence tracker *)

(** An administrator's [/unlink] of a linked identity removes that
    identity's link row and nothing else: the reply names the growid it
    had, [/mylink] then answers "not linked", the identity no longer counts
    as verified (so it can verify again), the other link rows, every
    balance (the unlinked identity's VP included) and the tracker are as
    before. *)
Theorem unlink_then_mylink (st : bot_state) (caller : Z)
    (target : option Z) (l : link_row) :
  discord_links st !! (match target with Some u => u | None => caller end)
    = Some l ->
  fst (unlink_command st true caller target) = Replied (Unlinked (growid l))
  /\
  mylink_command (snd (unlink_command st true caller target))
    (match target with Some u => u | None => caller end)
  = (Replied YouAreNotLinked, snd (unlink_command st true caller target)) /\
  verified_link (discord_links (snd (unlink_command st true caller target)))
    (match target with Some u => u | None => caller end) = None /\
  (forall k, k <> match target with Some u => u | None => caller end ->
     discord_links (snd (unlink_command st true caller target)) !! k
       = discord_links st !! k) /\
  vp_balance (snd (unlink_command st true caller target)) = vp_balance st /\
  voice_tracking (snd (unlink_command st true caller target))
    = voice_tracking st.
Proof.
  intros Hl. unfold unlink_command. cbn [negb]. rewrite Hl. cbn [fst snd].
  split; [done|]. split; [|split; [|split; [|done]]].
  - unfold mylink_command. cbn [discord_links].
    by rewrite lookup_delete_eq.
  - unfold verified_link. cbn [discord_links]. by rewrite lookup_delete_eq.
  - intros k Hk. cbn [discord_links]. by rewrite lookup_delete_ne.
Qed.

Lemma unlink_then_mylink_witness :
  fst (unlink_command
         (BotState {[ 5 := BalanceRow "ann" 4 4 0 ]}
                   {[ 5 := LinkRow "Alice" (Some 10) 1 None ]} ∅)
         true 1 (Some 5)) = Replied (Unlinked "Alice").
Proof.
  destruct (unlink_then_mylink
              (BotState {[ 5 := BalanceRow "ann" 4 4 0 ]}
                        {[ 5 := LinkRow "Alice" (Some 10) 1 None ]} ∅)
              1 (Some 5) (LinkRow "Alice" (Some 10) 1 None))
    as [Hreply _].
  - reflexivity.
  - exact Hreply.
Defined.

(** The store side of [/vp] cannot fail: [get_or_create_user] always hands
    back a row, so (the platform having reported the member's voice
    state) the answer is the balance embed.  It shows the current and
    lifetime-earned VP of the caller's row as stored after the call, the
    current VP being what [get_vp] gave before (0 for a newcomer, whose
    row is created); no other balance row, no link row and no tracker
    entry changes. *)
Theorem vp_command_reply (cfg : config) (st : bot_state)
    (i : Z) (n : string) (s : Z) (voice : option Z) :
  exists link active row,
    fst (vp_command cfg st i n s voice)
      = Replied (BalanceEmbed link (vp row) (total_earned row) active) /\
    vp_balance (snd (vp_command cfg st i n s voice)) !! i = Some row /\
    vp row = Database.get_vp (vp_balance st) i /\
    (forall j, j <> i ->
       vp_balance (snd (vp_command cfg st i n s voice)) !! j
         = vp_balance st !! j) /\
    discord_links (snd (vp_command cfg st i n s voice)) = discord_links st /\
    voice_tracking (snd (vp_command cfg st i n s voice)) = voice_tracking st.
Proof.
  unfold vp_command, Database.get_vp.
  destruct (vp_balance st !! i) as [row|] eqn:Hrow.
  - rewrite (get_or_create_known _ _ _ _ _ Hrow). cbn [fst snd].
    eexists _, _, row. by repeat split.
  - rewrite (get_or_create_unknown _ _ _ _ Hrow). cbn [fst snd].
    eexists _, _, (BalanceRow n 0 0 s). cbn [vp_balance].
    split; [done|]. split; [apply lookup_insert_eq|]. split; [done|].
    split; [|done]. intros j Hj. by apply lookup_insert_ne.
Qed.



(** A voice update never writes to the links table and never changes or
    removes a balance row; it can only add one, for the member itself,
    and only a join does: after a join the member has a balance record,
    while a leave, a switch and an update within one channel leave the
    balances as they were. *)
Theorem on_voice_state_update_store (st : bot_state) (i : Z) (n : string)
    (before after : option Z) (now : Q) (stamp : Z) :
  discord_links (on_voice_state_update st i n before after now stamp)
    = discord_links st /\
  (forall j r, vp_balance st !! j = Some r ->
     vp_balance (on_voice_state_update st i n before after now stamp) !! j
       = Some r) /\
  (forall j, j <> i ->
     vp_balance (on_voice_state_update st i n before after now stamp) !! j
       = vp_balance st !! j) /\
  (before <> None \/ after = None ->
   vp_balance (on_voice_state_update st i n before after now stamp)
     = vp_balance st) /\
  (before = None -> after <> None ->
   is_Some
     (vp_balance (on_voice_state_update st i n before after now stamp)
        !! i)).
Proof.
  unfold on_voice_state_update.
  destruct before as [b|], after as [a|]; cbn [vp_balance discord_links];
    try (destruct (b =? a)); cbn [vp_balance discord_links];
    repeat split; try done.
  - intros j r Hj. by apply get_or_create_keeps.
  - intros j Hj. destruct (vp_balance st !! i) as [row|] eqn:Hrow.
    + by rewrite (get_or_create_known _ _ _ _ _ Hrow).
    + rewrite (get_or_create_unknown _ _ _ _ Hrow). cbn [snd].
      by apply lookup_insert_ne.
  - by intros [?|?].
  - intros _ _. destruct (vp_balance st !! i) as [row|] eqn:Hrow.
    + rewrite (get_or_create_known _ _ _ _ _ Hrow). cbn [snd].
      by rewrite Hrow.
    + rewrite (get_or_create_unknown _ _ _ _ Hrow). cbn [snd].
      by rewrite lookup_insert_eq.
Qed.

Lemma on_voice_state_update_store_witness :
  is_Some
    (vp_balance
       (on_voice_state_update (BotState ∅ ∅ ∅) 1 "ann" None (Some 100) 0 0)
       !! 1).
Proof.
  destruct (on_voice_state_update_store (BotState ∅ ∅ ∅) 1 "ann" None
              (Some 100) 0 0) as (_ & _ & _ & _ & Hjoin).
  apply Hjoin; [reflexivity|discriminate].
Defined.

(** Credits add up: crediting [a] and then [b] leaves the store as one
    credit of [a + b] made at the time of the second, for a known identity
    and (nothing happening at all) for an unknown one, and the second call
    returns the same new balance as the single credit. *)
Theorem add_vp_twice (db : gmap Z balance_row) (i a b s s' : Z) :
  Database.add_vp (snd (Database.add_vp db i a s)) i b s'
  = Database.add_vp db i (a + b) s'.
Proof.
  destruct (db !! i) as [row|] eqn:Hrow.
  - rewrite (add_vp_known _ _ a s _ Hrow). cbn [snd].
    rewrite (add_vp_known _ _ b s'
               (BalanceRow (discord_name row) (vp row + a)
                  (total_earned row + a) s))
      by apply lookup_insert_eq.
    rewrite (add_vp_known _ _ (a + b) s' _ Hrow). cbn.
    rewrite insert_insert_eq. f_equal; [lia|]. do 2 f_equal; lia.
  - rewrite (add_vp_unknown _ _ a s Hrow). cbn [snd].
    by rewrite !add_vp_unknown.
Qed.

(** The links table changes only through [/verify] and through [/unlink]
    by an administrator: no voice update, no tick, no [/vp],
    [/leaderboard], [/whois], [/mylink] or [/help], and no [/unlink] by
    anyone else writes to it. *)
Theorem step_links_frame (cfg : config) (py : py_str) (st : bot_state)
    (ev : event) :
  match ev with
  | Verify _ _ _ _ _ => True
  | Unlink true _ _ => True
  | _ => discord_links (step cfg py st ev) = discord_links st
  end.
Proof.
  destruct ev as [i n b a now s|t stamps|i n code s1 s2|adm i t|i n s v|
                  |g fetch|i|]; cbn [step].
  - unfold on_voice_state_update.
    destruct b as [b|], a as [a|]; try done. by destruct (b =? a).
  - done.
  - done.
  - by destruct adm.
  - unfold vp_command. by case_match.
  - done.
  - by rewrite whois_command_state.
  - by rewrite mylink_command_state.
  - done.
Qed.

(** No double credit within a minute: an identity credited by a tick is
    skipped by any following tick that comes less than a minute after it,
    its balance and its baseline staying as the first tick left them. *)
Theorem check_voice_states_no_double_credit (cfg : config) (st : bot_state)
    (now now' : Q) (stamps stamps' : Z -> Z) (i : Z) (e : track_entry) :
  voice_tracking st !! i = Some e ->
  channel_id e = VP_CHANNEL_ID cfg ->
  (1 <= (now - joined_at e) / 60)%Q ->
  ~ (1 <= (now' - now) / 60)%Q ->
  vp_balance
    (check_voice_states cfg (check_voice_states cfg st now stamps)
       now' stamps') !! i
  = vp_balance (check_voice_states cfg st now stamps) !! i /\
  voice_tracking
    (check_voice_states cfg (check_voice_states cfg st now stamps)
       now' stamps') !! i
  = Some (TrackEntry (channel_id e) now).
Proof.
  intros Hi Hch Hmin Hsoon.
  assert (voice_tracking (check_voice_states cfg st now stamps) !! i
          = Some (TrackEntry (channel_id e) now)) as Hi'.
  { pose proof (check_voice_states_at cfg st now stamps i) as Hat.
    rewrite Hi in Hat. destruct Hat as [_ ->].
    destruct (award_cases cfg now stamps (i, e))
      as [(_ & _ & ->)|([Hskip|Hskip] & _)]; [|by destruct Hskip..].
    cbn [fst snd]. by rewrite lookup_alter_eq, Hi. }
  pose proof (check_voice_states_at cfg
                (check_voice_states cfg st now stamps) now' stamps' i) as Hat.
  rewrite Hi' in Hat. destruct Hat as [-> ->].
  destruct (award_cases cfg now' stamps' (i, TrackEntry (channel_id e) now))
    as [(Hmin' & _)|(_ & ->)]; [by destruct Hsoon|].
  cbn [fst snd]. by rewrite Hi'.
Qed.

Lemma check_voice_states_no_double_credit_witness :
  vp_balance
    (check_voice_states (Config 100 200)
       (check_voice_states (Config 100 200)
          (BotState {[ 1 := BalanceRow "ann" 0 0 0 ]} ∅
                    {[ 1 := TrackEntry 100 0 ]})
          90 (fun _ => 90))
       120 (fun _ => 120)) !! 1
  = Some (BalanceRow "ann" 3 3 90).
Proof.
  destruct (check_voice_states_no_double_credit (Config 100 200)
              (BotState {[ 1 := BalanceRow "ann" 0 0 0 ]} ∅
                        {[ 1 := TrackEntry 100 0 ]})
              90 120 (fun _ => 90) (fun _ => 120) 1 (TrackEntry 100 0))
    as [Hdb _].
  - reflexivity.
  - reflexivity.
  - unfold Qle. simpl. lia.
  - unfold Qle. simpl. lia.
  - exact Hdb.
Defined.
